(** * The Dockerfile build engine of docker 1.2.0 (daemon/build.go)

    A shallow embedding of [buildFile] and its instruction handlers,
    together with the properties of the engine that its specification
    states.

    Go strings are byte sequences: they are modelled by [string], whose
    characters are the 8-bit [ascii].  The functions of Go's [strings],
    [path] and [regexp] packages that build.go calls are written out
    below on bytes.  [strings.ToUpper] and [strings.ToLower] map a text
    rune by rune through the case tables of package [unicode]: on a text
    of ASCII bytes they are written out, and what the tables give on any
    other text is a parameter. *)

From Stdlib Require Import Ascii String ZArith Lia Bool.
From stdpp Require Import base option list strings gmap pretty sorting.

Local Open Scope string_scope.
Local Open Scope list_scope.

(** ** Package [strings] *)

Module strings.

Definition is_empty (s : string) : bool :=
  match s with EmptyString => true | String _ _ => false end.

Fixpoint HasPrefix (s prefix : string) : bool :=
  match prefix, s with
  | EmptyString, _ => true
  | String p ps, String c cs => Ascii.eqb c p && HasPrefix cs ps
  | String _ _, EmptyString => false
  end.

Definition HasSuffix (s suffix : string) : bool :=
  HasPrefix (String.rev s) (String.rev suffix).

Fixpoint contains_byte (c : ascii) (s : string) : bool :=
  match s with
  | EmptyString => false
  | String d s' => Ascii.eqb d c || contains_byte c s'
  end.

(** [strings.Split(s, sep)] for a separator of one byte: the fields
    between the separators, never an empty list. *)
Fixpoint Split (s : string) (sep : ascii) : list string :=
  match s with
  | EmptyString => [EmptyString]
  | String c s' =>
      if Ascii.eqb c sep then EmptyString :: Split s' sep
      else match Split s' sep with
           | h :: t => String c h :: t
           | [] => [String c EmptyString]
           end
  end.

(** [strings.SplitN(s, sep, 2)]: cut at the first separator only. *)
Fixpoint SplitN2 (s : string) (sep : ascii) : list string :=
  match s with
  | EmptyString => [EmptyString]
  | String c s' =>
      if Ascii.eqb c sep then [EmptyString; s']
      else match SplitN2 s' sep with
           | h :: t => String c h :: t
           | [] => [String c EmptyString]
           end
  end.

Fixpoint Join (a : list string) (sep : string) : string :=
  match a with
  | [] => EmptyString
  | [x] => x
  | x :: rest => x +:+ sep +:+ Join rest sep
  end.

Fixpoint TrimLeft (s cutset : string) : string :=
  match s with
  | EmptyString => EmptyString
  | String c s' => if contains_byte c cutset then TrimLeft s' cutset else s
  end.

Fixpoint TrimRight (s cutset : string) : string :=
  match s with
  | EmptyString => EmptyString
  | String c s' =>
      let r := TrimRight s' cutset in
      if is_empty r && contains_byte c cutset then EmptyString
      else String c r
  end.

Definition Trim (s cutset : string) : string :=
  TrimRight (TrimLeft s cutset) cutset.

Fixpoint drop (n : nat) (s : string) : string :=
  match n, s with
  | S k, String _ s' => drop k s'
  | _, _ => s
  end.

Definition TrimPrefix (s prefix : string) : string :=
  if HasPrefix s prefix then drop (String.length prefix) s else s.

Definition upper_byte (c : ascii) : ascii :=
  let n := nat_of_ascii c in
  if (97 <=? n)%nat && (n <=? 122)%nat then ascii_of_nat (n - 32) else c.

Definition lower_byte (c : ascii) : ascii :=
  let n := nat_of_ascii c in
  if (65 <=? n)%nat && (n <=? 90)%nat then ascii_of_nat (n + 32) else c.

Fixpoint map_bytes (f : ascii -> ascii) (s : string) : string :=
  match s with
  | EmptyString => EmptyString
  | String c s' => String (f c) (map_bytes f s')
  end.

(** Whether every byte of [s] is below 0x80. *)
Fixpoint is_ascii (s : string) : bool :=
  match s with
  | EmptyString => true
  | String c s' => (nat_of_ascii c <? 128)%nat && is_ascii s'
  end.

(** [strings.ToUpper] and [strings.ToLower]: [strings.Map] of
    [unicode.ToUpper] and of [unicode.ToLower].  On a rune below U+0080
    these are the maps of the letters a to z and A to Z, so that on a text
    of ASCII bytes the result is the text with its letters mapped.  On any
    other text (one that holds a rune from U+0080 on, or a byte that is not
    UTF-8) the result is what the tables of package [unicode] give:
    [tables] stands for it. *)
Definition ToUpper (tables : string -> string) (s : string) : string :=
  if is_ascii s then map_bytes upper_byte s else tables s.
Definition ToLower (tables : string -> string) (s : string) : string :=
  if is_ascii s then map_bytes lower_byte s else tables s.

(** [strings.Index(s, sep)] for a separator of one byte; -1 when absent. *)
Fixpoint Index (s : string) (sep : ascii) : Z :=
  match s with
  | EmptyString => (-1)%Z
  | String c s' =>
      if Ascii.eqb c sep then 0%Z
      else let i := Index s' sep in
           if (i <? 0)%Z then (-1)%Z else (i + 1)%Z
  end.

(** The slice expression [s[i:]]; [None] is Go's run-time panic for an
    index out of range. *)
Definition slice_from (s : string) (i : Z) : option string :=
  if (i <? 0)%Z || (Z.of_nat (String.length s) <? i)%Z then None
  else Some (drop (Z.to_nat i) s).

(** [strings.Replace(s, old, new, -1)]: every non-overlapping occurrence
    of [old], found from the left.  [skip] counts the bytes of an
    occurrence still to be passed over. *)
Fixpoint Replace_go (old new : string) (skip : nat) (s : string) : string :=
  match s with
  | EmptyString => EmptyString
  | String c s' =>
      match skip with
      | S k => Replace_go old new k s'
      | O =>
          if HasPrefix s old
          then new +:+ Replace_go old new (String.length old - 1) s'
          else String c (Replace_go old new 0 s')
      end
  end.

Fixpoint intersperse (new s : string) : string :=
  match s with
  | EmptyString => new
  | String c s' => new +:+ String c (intersperse new s')
  end.

Definition ReplaceAll (s old new : string) : string :=
  if is_empty old then intersperse new s else Replace_go old new 0 s.

End strings.

(** ** Packages [path] and [path/filepath] (Unix) *)

Module path.

Definition clean_step (rooted : bool) (stack : list string) (c : string)
  : list string :=
  if String.eqb c "" || String.eqb c "." then stack
  else if String.eqb c ".." then
    match stack with
    | top :: below =>
        if String.eqb top ".." then c :: stack else below
    | [] => if rooted then [] else [c]
    end
  else c :: stack.

(** [path.Clean]: the shortest path equivalent to [p] by lexical
    processing.  [stack] holds the components kept so far, last first. *)
Definition Clean (p : string) : string :=
  if strings.is_empty p then "."
  else
    let rooted := strings.HasPrefix p "/" in
    let stack := fold_left (clean_step rooted) (strings.Split p "/") [] in
    let body := strings.Join (rev stack) "/" in
    if rooted then "/" +:+ body
    else if strings.is_empty body then "." else body.

(** [path.Join] of two elements: the elements from the first one that is
    not empty on, joined by slashes and cleaned. *)
Definition Join (a b : string) : string :=
  if negb (strings.is_empty a) then Clean (a +:+ "/" +:+ b)
  else if negb (strings.is_empty b) then Clean b
  else "".

Definition last_component (p : string) : string :=
  List.last (strings.Split p "/") "".

(** [path.Base]: the last element, trailing slashes removed. *)
Definition Base (p : string) : string :=
  if strings.is_empty p then "."
  else
    let q := strings.TrimRight p "/" in
    if strings.is_empty q then "/" else last_component q.

(** [path.Dir]: all but the last element, cleaned. *)
Definition Dir (p : string) : string :=
  let comps := strings.Split p "/" in
  match comps with
  | [_] => Clean ""
  | _ => Clean (strings.Join (removelast comps) "/" +:+ "/")
  end.

End path.

(** ** The two regular expressions of build.go (package [regexp])

    Go's matcher returns the leftmost match and, among the matches that
    start there, the one a backtracking search finds first.  Both
    expressions are written out as scanners with that behaviour.  A scan
    goes through the text once; [skip] counts the bytes of the match just
    found that are still to be passed over. *)

Module regexp.

Definition TAB : ascii := "009"%char.
Definition LF : ascii := "010"%char.
Definition FF : ascii := "012"%char.
Definition CR : ascii := "013"%char.
Definition BACKSLASH : ascii := "092"%char.

(** The class [\s]: tab, newline, form feed, carriage return, space. *)
Definition is_space (c : ascii) : bool :=
  Ascii.eqb c TAB || Ascii.eqb c LF || Ascii.eqb c FF || Ascii.eqb c CR
  || Ascii.eqb c " ".

(** The class [[[:alnum:]_]], which is also the word class of [\b]. *)
Definition is_word (c : ascii) : bool :=
  let n := nat_of_ascii c in
  ((48 <=? n)%nat && (n <=? 57)%nat) || ((65 <=? n)%nat && (n <=? 90)%nat)
  || ((97 <=? n)%nat && (n <=? 122)%nat) || Ascii.eqb c "_".

(** *** [lineContinuation = `\\\s*\n`] *)

(** After a backslash: the number of bytes that [\s*\n] takes, the
    greedy [\s*] giving back as little as the final newline needs. *)
Fixpoint space_run_to_newline (s : string) : option nat :=
  match s with
  | EmptyString => None
  | String c s' =>
      if is_space c then
        match space_run_to_newline s' with
        | Some n => Some (S n)
        | None => if Ascii.eqb c LF then Some 1 else None
        end
      else None
  end.

(** [lineContinuation.ReplaceAllString(s, "")] *)
Fixpoint lineContinuation_remove_go (skip : nat) (s : string) : string :=
  match s with
  | EmptyString => EmptyString
  | String c s' =>
      match skip with
      | S k => lineContinuation_remove_go k s'
      | O =>
          if Ascii.eqb c BACKSLASH then
            match space_run_to_newline s' with
            | Some n => lineContinuation_remove_go n s'
            | None => String c (lineContinuation_remove_go 0 s')
            end
          else String c (lineContinuation_remove_go 0 s')
      end
  end.

Definition lineContinuation_remove (s : string) : string :=
  lineContinuation_remove_go 0 s.

(** *** The expression of [ReplaceEnvMatches]:
    [(\\\\+|[^\\]|\b|\A)\$({?)([[:alnum:]_]+)(}?)] *)

Fixpoint word_run (s : string) : nat :=
  match s with
  | String c s' => if is_word c then S (word_run s') else 0
  | EmptyString => 0
  end.

Fixpoint backslash_run (s : string) : nat :=
  match s with
  | String c s' => if Ascii.eqb c BACKSLASH then S (backslash_run s') else 0
  | EmptyString => 0
  end.

Definition starts_with (c : ascii) (s : string) : bool :=
  match s with String d _ => Ascii.eqb d c | EmptyString => false end.

(** The length of [\$({?)([[:alnum:]_]+)(}?)] matched at the head of [s]:
    a dollar, a brace if there is one, the longest name, a closing brace
    if there is one. *)
Definition dollar_token (s : string) : option nat :=
  match s with
  | String "$" r =>
      let b := if starts_with "{" r then 1 else 0 in
      let n := word_run (strings.drop b r) in
      if (n =? 0)%nat then None
      else
        let e := if starts_with "}" (strings.drop (b + n) r) then 1 else 0 in
        Some (1 + b + n + e)
  | _ => None
  end.

(** The length of the match that starts at the head of [s], [prev] being
    the byte before it ([None] at the start of the text).  The four
    alternatives of the first group are tried in their order. *)
Definition env_match_at (prev : option ascii) (s : string) : option nat :=
  let k := backslash_run s in
  let alt1 :=
    if (2 <=? k)%nat
    then option_map (Nat.add k) (dollar_token (strings.drop k s))
    else None in
  let alt2 :=
    match s with
    | String c r =>
        if Ascii.eqb c BACKSLASH then None
        else option_map S (dollar_token r)
    | EmptyString => None
    end in
  let boundary :=
    xorb (match prev with Some p => is_word p | None => false end)
         (match s with String c _ => is_word c | EmptyString => false end) in
  let alt3 := if boundary then dollar_token s else None in
  let alt4 := match prev with None => dollar_token s | Some _ => None end in
  match alt1, alt2, alt3 with
  | Some n, _, _ => Some n
  | None, Some n, _ => Some n
  | None, None, Some n => Some n
  | None, None, None => alt4
  end.

Fixpoint take (n : nat) (s : string) : string :=
  match n, s with
  | S k, String c s' => String c (take k s')
  | _, _ => EmptyString
  end.

(** [exp.FindAllString(value, -1)] *)
Fixpoint env_FindAll_go (prev : option ascii) (skip : nat) (s : string)
  : list string :=
  match s with
  | EmptyString => []
  | String c s' =>
      match skip with
      | S k => env_FindAll_go (Some c) k s'
      | O =>
          match env_match_at prev s with
          | Some n => take n s :: env_FindAll_go (Some c) (n - 1) s'
          | None => env_FindAll_go (Some c) 0 s'
          end
      end
  end.

Definition env_FindAllString (value : string) : list string :=
  env_FindAll_go None 0 value.

End regexp.

(** ** Data model *)

Definition error : Type := string.

(** What a call of a Go function ends in: a value, a returned [error], or
    a run-time panic. *)
Inductive outcome (A : Type) : Type :=
| Ok (a : A)
| Err (e : error)
| Panic (msg : string).
Arguments Ok {A} a.
Arguments Err {A} e.
Arguments Panic {A} msg.

(** [runconfig.Config], the fields that build.go reads or writes.  A nil
    slice or map and an empty one are the same list or set here. *)
Record Config : Type := mkConfig {
  Cmd : list string;
  Entrypoint : list string;
  Env : list string;
  WorkingDir : string;
  User : string;
  ExposedPorts : gset string;
  PortSpecs : list string;
  Volumes : gset string;
  OnBuild : list string;
  Image : string
}.

Definition empty_Config : Config :=
  mkConfig [] [] [] EmptyString EmptyString ∅ [] ∅ [] EmptyString.

Definition set_Cmd (v : list string) (c : Config) : Config :=
  mkConfig v (Entrypoint c) (Env c) (WorkingDir c) (User c) (ExposedPorts c)
           (PortSpecs c) (Volumes c) (OnBuild c) (Image c).
Definition set_Entrypoint (v : list string) (c : Config) : Config :=
  mkConfig (Cmd c) v (Env c) (WorkingDir c) (User c) (ExposedPorts c)
           (PortSpecs c) (Volumes c) (OnBuild c) (Image c).
Definition set_Env (v : list string) (c : Config) : Config :=
  mkConfig (Cmd c) (Entrypoint c) v (WorkingDir c) (User c) (ExposedPorts c)
           (PortSpecs c) (Volumes c) (OnBuild c) (Image c).
Definition set_WorkingDir (v : string) (c : Config) : Config :=
  mkConfig (Cmd c) (Entrypoint c) (Env c) v (User c) (ExposedPorts c)
           (PortSpecs c) (Volumes c) (OnBuild c) (Image c).
Definition set_User (v : string) (c : Config) : Config :=
  mkConfig (Cmd c) (Entrypoint c) (Env c) (WorkingDir c) v (ExposedPorts c)
           (PortSpecs c) (Volumes c) (OnBuild c) (Image c).
Definition set_ExposedPorts (v : gset string) (c : Config) : Config :=
  mkConfig (Cmd c) (Entrypoint c) (Env c) (WorkingDir c) (User c) v
           (PortSpecs c) (Volumes c) (OnBuild c) (Image c).
Definition set_PortSpecs (v : list string) (c : Config) : Config :=
  mkConfig (Cmd c) (Entrypoint c) (Env c) (WorkingDir c) (User c)
           (ExposedPorts c) v (Volumes c) (OnBuild c) (Image c).
Definition set_Volumes (v : gset string) (c : Config) : Config :=
  mkConfig (Cmd c) (Entrypoint c) (Env c) (WorkingDir c) (User c)
           (ExposedPorts c) (PortSpecs c) v (OnBuild c) (Image c).
Definition set_OnBuild (v : list string) (c : Config) : Config :=
  mkConfig (Cmd c) (Entrypoint c) (Env c) (WorkingDir c) (User c)
           (ExposedPorts c) (PortSpecs c) (Volumes c) v (Image c).
Definition set_Image (v : string) (c : Config) : Config :=
  mkConfig (Cmd c) (Entrypoint c) (Env c) (WorkingDir c) (User c)
           (ExposedPorts c) (PortSpecs c) (Volumes c) (OnBuild c) v.

(** A [*runconfig.Config] is an address in the heap of configs. *)
Definition addr : Type := nat.

(** [image.Image] as a lookup answers it, and as [CmdFrom] holds it: the
    object's [Config] field is a pointer, nil for an image with no config. *)
Record ImageData : Type := mkImageData {
  data_ID : string;
  data_Config : option Config
}.

Record ImageObj : Type := mkImageObj {
  img_ID : string;
  img_Config : option addr
}.

(** ** The collaborators of the builder

    The daemon, the graph, the registry, the file system and the network are
    not part of the builder.  Each operation the builder calls on them is a
    [call]; [answer] gives the type of what comes back. *)

(** [registry.AuthConfig], in the JSON form in which the pull job receives
    it, and [registry.ConfigFile], whose [Configs] map holds one per
    registry. *)
Definition AuthConfig : Type := string.
Definition ConfigFile : Type := gmap string AuthConfig.

Inductive call : Type :=
| LookupImage (name : string)
| PullJob (remote tag : string) (json : bool) (auth : AuthConfig)
| ImageGetCached (imgID : string) (c : Config)
| Create (c : Config)
| Get (id : string)
| Destroy (id : string)
| Mount (id : string)
| Unmount (id : string)
| SetPathArgs (id : string) (path : string) (args : list string)
| Start (id : string)
| Attach (id : string)
| WaitStop (id : string)
| Commit (id author : string) (c : Config)
| RootfsPath (id : string)
| EvalSymlinks (p : string)
| Stat (p : string)
| Download (url : string)
| TempDir (dir pfx : string)
| OpenFile (p : string)
| CopyBody (file resp : string)
| CloseFile (file : string)
| RemoveAll (p : string)
| UtimesNano (p : string)
| ArchiveTar (p : string)
| TarSumCopy (r : string)
| CloseReader (r : string)
| FollowSymlinkInScope (p root : string)
| CopyWithTar (src dst : string)
| ReadDir (p : string)
| WalkLchown (p : string) (uid gid : Z)
| UntarPath (src dst : string)
| MkdirAll (p : string)
| DecompressStream
| UntarContext (dir : string)
| ReadFile (p : string).

Definition answer (c : call) : Type :=
  match c with
  | LookupImage _ => error + ImageData
  | ImageGetCached _ _ => error + option string
  | Create _ => error + (string * list string)
  | Get _ => bool
  | Commit _ _ _ => error + string
  | WaitStop _ => Z
  | RootfsPath _ => string
  | EvalSymlinks _ | Download _ | TempDir _ _ | OpenFile _ | ArchiveTar _
  | TarSumCopy _ | FollowSymlinkInScope _ _ | ReadFile _ => error + string
  | Stat _ => error + bool
  | ReadDir _ => error + list string
  | UntarContext _ => gmap string string * option error
  | Unmount _ | SetPathArgs _ _ _ | CloseFile _ | RemoveAll _
  | CloseReader _ => unit
  | DecompressStream
  | PullJob _ _ _ _ | Destroy _ | Mount _ | Start _ | Attach _
  | CopyBody _ _ | UtimesNano _ | CopyWithTar _ _ | WalkLchown _ _ _
  | UntarPath _ _ | MkdirAll _ => option error
  end.

(** The library functions that build.go calls and that do not touch the
    daemon or the file system: they are functions of their arguments. *)
Record Lib : Type := mkLib {
  (** the constant [DefaultPathEnv] of package daemon *)
  DefaultPathEnv : string;
  (** [strings.ToUpper] and [strings.ToLower] on a text that is not all
      ASCII: the case tables of package [unicode] *)
  unicode_ToUpper : string -> string;
  unicode_ToLower : string -> string;
  (** [json.Unmarshal] into a [[]string]; [None] for an error *)
  json_Unmarshal : string -> option (list string);
  ParseRepositoryTag : string -> string * string;
  (** [registry.ResolveRepositoryName], its endpoint *)
  ResolveRepositoryName : string -> error + string;
  ResolveAuthConfig : ConfigFile -> string -> AuthConfig;
  Graph_IsNotExist : error -> bool;
  os_IsNotExist : error -> bool;
  (** [runconfig.Parse], the config it returns *)
  runconfig_Parse : list string -> error + Config;
  (** [runconfig.Merge userConf imageConf], the user config afterwards *)
  runconfig_Merge : Config -> Config -> Config;
  (** [nat.ParsePortSpecs], the set of ports *)
  ParsePortSpecs : list string -> error + gset string;
  (** [%v] of a port set *)
  Sprint_ports : gset string -> string;
  IsURL : string -> bool;
  (** [url.Parse]: the [Path] of the URL and its [String()] *)
  url_Parse : string -> error + (string * string);
  (** [hex.EncodeToString] of the SHA-256 of a string *)
  sha256_hex : string -> string
}.

(** [strings.ToUpper] and [strings.ToLower], with the tables of the
    library. *)
Definition ToUpper (lib : Lib) : string -> string :=
  strings.ToUpper (unicode_ToUpper lib).
Definition ToLower (lib : Lib) : string -> string :=
  strings.ToLower (unicode_ToLower lib).

(** ** The state of a build *)

(** The struct [buildFile].  The daemon, the engine and the two writers are
    in [state] below. *)
Record buildFile : Type := mkBuildFile {
  image : string;
  maintainer : string;
  config : addr;
  contextPath : string;
  (** [context *tarsum.TarSum]: nil, or the sums of the context's files *)
  context : option (gmap string string);
  verbose : bool;
  utilizeCache : bool;
  rm : bool;
  forceRm : bool;
  authConfig : AuthConfig;
  configFile : ConfigFile;
  tmpContainers : gset string;
  tmpImages : gset string;
  (** [sf.Json()] of the stream formatter *)
  sf_json : bool;
  (** whether CMD was set in the current Dockerfile *)
  cmdSet : bool
}.

Definition set_image (v : string) (b : buildFile) : buildFile :=
  mkBuildFile v (maintainer b) (config b) (contextPath b) (context b)
    (verbose b) (utilizeCache b) (rm b) (forceRm b) (authConfig b)
    (configFile b) (tmpContainers b) (tmpImages b) (sf_json b) (cmdSet b).
Definition set_maintainer (v : string) (b : buildFile) : buildFile :=
  mkBuildFile (image b) v (config b) (contextPath b) (context b) (verbose b)
    (utilizeCache b) (rm b) (forceRm b) (authConfig b) (configFile b)
    (tmpContainers b) (tmpImages b) (sf_json b) (cmdSet b).
Definition set_config (v : addr) (b : buildFile) : buildFile :=
  mkBuildFile (image b) (maintainer b) v (contextPath b) (context b)
    (verbose b) (utilizeCache b) (rm b) (forceRm b) (authConfig b)
    (configFile b) (tmpContainers b) (tmpImages b) (sf_json b) (cmdSet b).
Definition set_contextPath (v : string) (b : buildFile) : buildFile :=
  mkBuildFile (image b) (maintainer b) (config b) v (context b) (verbose b)
    (utilizeCache b) (rm b) (forceRm b) (authConfig b) (configFile b)
    (tmpContainers b) (tmpImages b) (sf_json b) (cmdSet b).
Definition set_context (v : option (gmap string string)) (b : buildFile) : buildFile :=
  mkBuildFile (image b) (maintainer b) (config b) (contextPath b) v
    (verbose b) (utilizeCache b) (rm b) (forceRm b) (authConfig b)
    (configFile b) (tmpContainers b) (tmpImages b) (sf_json b) (cmdSet b).
Definition set_tmpContainers (v : gset string) (b : buildFile) : buildFile :=
  mkBuildFile (image b) (maintainer b) (config b) (contextPath b)
    (context b) (verbose b) (utilizeCache b) (rm b) (forceRm b)
    (authConfig b) (configFile b) v (tmpImages b) (sf_json b) (cmdSet b).
Definition set_tmpImages (v : gset string) (b : buildFile) : buildFile :=
  mkBuildFile (image b) (maintainer b) (config b) (contextPath b)
    (context b) (verbose b) (utilizeCache b) (rm b) (forceRm b)
    (authConfig b) (configFile b) (tmpContainers b) v (sf_json b) (cmdSet b).
Definition set_cmdSet (v : bool) (b : buildFile) : buildFile :=
  mkBuildFile (image b) (maintainer b) (config b) (contextPath b)
    (context b) (verbose b) (utilizeCache b) (rm b) (forceRm b)
    (authConfig b) (configFile b) (tmpContainers b) (tmpImages b)
    (sf_json b) v.

(** ** The functions of build.go that need no state *)

Definition LF_string : string := String regexp.LF EmptyString.
Definition TAB_string : string := String regexp.TAB EmptyString.

(** The cut set [" \t"] *)
Definition blank_cutset : string := String " " TAB_string.
(** The cut set [" \t\r\n"] *)
Definition line_cutset : string :=
  String " " (String regexp.TAB (String regexp.CR LF_string)).

(** [%v] of a [[]string] *)
Definition Sprint_strings (l : list string) : string :=
  "[" +:+ strings.Join l " " +:+ "]".

(** [utils.TruncateID] *)
Definition TruncateID (id : string) : string := regexp.take 12 id.

(** The loop of [stripComments]: [out] collects the lines kept so far. *)
Fixpoint stripComments_loop (out lines : list string) : list string :=
  match lines with
  | [] => out
  | l :: rest =>
      match l with
      | EmptyString => stripComments_loop out rest
      | String c _ =>
          if Ascii.eqb c "#" then stripComments_loop out rest
          else stripComments_loop (out ++ [l]) rest
      end
  end.

Definition stripComments (raw : string) : string :=
  strings.Join (stripComments_loop [] (strings.Split raw regexp.LF)) LF_string.

(** [Build], lines 895 and 898: the text of the Dockerfile as the step loop
    reads it, and its lines. *)
Definition preprocess (fileBytes : string) : string :=
  regexp.lineContinuation_remove (stripComments fileBytes).

(** [Build], line 899: what the loop does to a line before it looks at it. *)
Definition normalize_line (line : string) : string :=
  strings.Trim (strings.ReplaceAll line TAB_string " ") line_cutset.

(** The loop of [FindEnvKey], [k] being the index of the head of [env]. *)
Fixpoint FindEnvKey_loop (key : string) (k : Z) (env : list string) : Z :=
  match env with
  | [] => (-1)%Z
  | envVar :: rest =>
      match strings.SplitN2 envVar "=" with
      | envKey :: _ =>
          if String.eqb key envKey then k
          else FindEnvKey_loop key (k + 1)%Z rest
      | [] => FindEnvKey_loop key (k + 1)%Z rest
      end
  end.

(** The inner loop of [ReplaceEnvMatches], over [config.Env].  [None] is
    the panic of [envParts[1]] on an entry that has no equals sign. *)
Fixpoint replace_match (env : list string) (matchKey match_ value : string)
  : option string :=
  match env with
  | [] => Some value
  | envVar :: rest =>
      match strings.SplitN2 envVar "=" with
      | [envKey; envValue] =>
          if String.eqb envKey matchKey
          then Some (strings.ReplaceAll value match_ envValue)
          else replace_match rest matchKey match_ value
      | _ => None
      end
  end.

(** The outer loop of [ReplaceEnvMatches], over the matches. *)
Fixpoint replace_matches (env : list string) (matches : list string)
  (value : string) : option string :=
  match matches with
  | [] => Some value
  | m :: rest =>
      match strings.slice_from m (strings.Index m "$") with
      | None => None
      | Some match_ =>
          let matchKey := strings.Trim match_ "${}" in
          match replace_match env matchKey match_ value with
          | None => None
          | Some value' => replace_matches env rest value'
          end
      end
  end.

(** [ReplaceEnvMatches] as a function of [config.Env].  The expression
    always compiles, so the error result is never used; [None] is a panic. *)
Definition ReplaceEnvMatches_in (env : list string) (value : string)
  : option string :=
  replace_matches env (regexp.env_FindAllString value) value.

(** The test that [CmdOnbuild] and [CmdFrom] make on a trigger. *)
Definition trigger_instruction (lib : Lib) (trigger : string) : string :=
  match strings.Split trigger " " with
  | first :: _ => ToUpper lib (strings.Trim first " ")
  | [] => EmptyString
  end.

(** ** The builder *)

Section Builder.

(** The state of the collaborators, and how each call changes it. *)
Context {W : Type}.
Variable lib : Lib.
Variable host : forall c : call, W -> answer c * W.

(** What a run of the builder sees and changes: the struct, the configs
    that pointers lead to, the collaborators, the calls made on them so
    far, and what was written to the two streams. *)
Record state : Type := mkState {
  bf : buildFile;
  heap : list Config;
  world : W;
  calls : list call;
  outStream : list string;
  errStream : list string
}.

Definition M (A : Type) : Type := state -> outcome A * state.

#[global] Instance M_ret : MRet M := fun A a s => (Ok a, s).
#[global] Instance M_bind : MBind M := fun A B f m s =>
  match m s with
  | (Ok a, s') => f a s'
  | (Err e, s') => (Err e, s')
  | (Panic msg, s') => (Panic msg, s')
  end.

Definition pure {A} (a : A) : M A := mret a.

(** [return err] *)
Definition throw {A} (e : error) : M A := fun s => (Err e, s).
Definition panic {A} (msg : string) : M A := fun s => (Panic msg, s).

(** [defer cleanup] before [body]: [cleanup] runs when [body] is left,
    however it is left. *)
Definition defer_ {A} (cleanup : M unit) (body : M A) : M A := fun s =>
  let (r, s1) := body s in (r, snd (cleanup s1)).

Definition get_b : M buildFile := fun s => (Ok (bf s), s).
Definition modify_b (f : buildFile -> buildFile) : M unit := fun s =>
  (Ok tt, mkState (f (bf s)) (heap s) (world s) (calls s) (outStream s)
                  (errStream s)).

(** [*b.config] *)
Definition deref (s : state) : Config :=
  default empty_Config (heap s !! config (bf s)).
Definition get_cfg : M Config := fun s => (Ok (deref s), s).
Definition modify_cfg (f : Config -> Config) : M unit := fun s =>
  (Ok tt, mkState (bf s) (<[config (bf s) := f (deref s)]> (heap s))
                  (world s) (calls s) (outStream s) (errStream s)).

(** [&runconfig.Config{...}] *)
Definition alloc (c : Config) : M addr := fun s =>
  (Ok (length (heap s)),
   mkState (bf s) (heap s ++ [c]) (world s) (calls s) (outStream s)
           (errStream s)).

Definition sys (c : call) : M (answer c) := fun s =>
  let (a, w) := host c (world s) in
  (Ok a, mkState (bf s) (heap s) w (calls s ++ [c]) (outStream s)
                 (errStream s)).

(** [fmt.Fprintf(b.outStream, ...)] and [fmt.Fprintf(b.errStream, ...)] *)
Definition out_print (line : string) : M unit := fun s =>
  (Ok tt, mkState (bf s) (heap s) (world s) (calls s)
                  (outStream s ++ [line]) (errStream s)).
Definition err_print (line : string) : M unit := fun s =>
  (Ok tt, mkState (bf s) (heap s) (world s) (calls s) (outStream s)
                  (errStream s ++ [line])).

(** [if err != nil { return err }] on what a collaborator answers *)
Definition check {A} (r : error + A) : M A :=
  match r with inl e => throw e | inr a => pure a end.
Definition check_err (r : option error) : M unit :=
  match r with Some e => throw e | None => pure tt end.

Definition when (c : bool) (m : M unit) : M unit :=
  if c then m else pure tt.

Fixpoint for_each {A} (l : list A) (body : A -> M unit) : M unit :=
  match l with
  | [] => pure tt
  | x :: rest => body x;; for_each rest body
  end.

(** *** [clearTmp], [probeCache], [create], [run], [commit] *)

Definition clearTmp : M unit :=
  b ← get_b;
  for_each (elements (tmpContainers b)) (fun c =>
    _ ← sys (Get c);
    r ← sys (Destroy c);
    match r with
    | Some err =>
        out_print ("Error removing intermediate container "
                   +:+ TruncateID c +:+ ": " +:+ err +:+ LF_string)
    | None =>
        modify_b (fun b => set_tmpContainers (tmpContainers b ∖ {[c]}) b);;
        out_print ("Removing intermediate container " +:+ TruncateID c
                   +:+ LF_string)
    end).

Definition probeCache : M bool :=
  b ← get_b;
  if utilizeCache b then
    cfg ← get_cfg;
    r ← sys (ImageGetCached (image b) cfg);
    cache ← check r;
    match cache with
    | Some cacheID =>
        out_print (" ---> Using cache" +:+ LF_string);;
        modify_b (set_image cacheID);;
        pure true
    | None => pure false
    end
  else pure false.

Definition add_tmpContainer (id : string) : M unit :=
  modify_b (fun b => set_tmpContainers ({[id]} ∪ tmpContainers b) b).

Definition create : M string :=
  b ← get_b;
  if strings.is_empty (image b) then
    throw "Please provide a source image with `from` prior to run"
  else
    modify_cfg (set_Image (image b));;
    cfg ← get_cfg;
    r ← sys (Create cfg);
    '(cid, _) ← check r;
    add_tmpContainer cid;;
    out_print (" ---> Running in " +:+ TruncateID cid +:+ LF_string);;
    cfg ← get_cfg;
    match Cmd cfg with
    | [] => panic "index out of range"
    | p :: args => sys (SetPathArgs cid p args);; pure cid
    end.

(** The attach of a verbose build runs beside the start of the
    container; its result is read after the start. *)
Definition run (c : string) : M unit :=
  b ← get_b;
  r ← sys (Start c);
  check_err r;;
  when (verbose b) (r ← sys (Attach c); check_err r);;
  ret_code ← sys (WaitStop c);
  if (ret_code =? 0)%Z then pure tt
  else
    cfg ← get_cfg;
    throw ("The command " +:+ Sprint_strings (Cmd cfg)
           +:+ " returned a non-zero code: " +:+ pretty ret_code).

(** [commit], from [container := b.daemon.Get(id)] on *)
Definition commit_container (id : string) (autoCmd : list string) : M unit :=
  found ← sys (Get id);
  if negb found then
    throw "An error occured while creating the container"
  else
    cfg ← get_cfg;
    b ← get_b;
    let autoConfig := set_Cmd autoCmd cfg in
    r ← sys (Commit id (maintainer b) autoConfig);
    imageID ← check r;
    modify_b (fun b => set_tmpImages ({[imageID]} ∪ tmpImages b) b);;
    modify_b (set_image imageID).

Definition commit (id : string) (autoCmd : list string) (comment : string)
  : M unit :=
  b ← get_b;
  if strings.is_empty (image b) then
    throw "Please provide a source image with `from` prior to commit"
  else
    modify_cfg (set_Image (image b));;
    if strings.is_empty id then
      cfg ← get_cfg;
      let cmd := Cmd cfg in
      modify_cfg (set_Cmd ["/bin/sh"; "-c"; "#(nop) " +:+ comment]);;
      defer_ (modify_cfg (set_Cmd cmd))
        (hit ← probeCache;
         if (hit : bool) then pure tt
         else
           cfg ← get_cfg;
           r ← sys (Create cfg);
           '(cid, warnings) ← check r;
           for_each warnings (fun warning =>
             out_print (" ---> [Warning] " +:+ warning +:+ LF_string));;
           add_tmpContainer cid;;
           out_print (" ---> Running in " +:+ TruncateID cid +:+ LF_string);;
           r ← sys (Mount cid);
           check_err r;;
           defer_ (sys (Unmount cid)) (commit_container cid autoCmd))
    else commit_container id autoCmd.

(** *** The handlers of the instructions, [CmdFrom] apart *)

Definition CmdOnbuild (trigger : string) : M unit :=
  let triggerInstruction := trigger_instruction lib trigger in
  if String.eqb triggerInstruction "ONBUILD" then
    throw "Chaining ONBUILD via `ONBUILD ONBUILD` isn't allowed"
  else if String.eqb triggerInstruction "MAINTAINER"
          || String.eqb triggerInstruction "FROM" then
    throw (triggerInstruction +:+ " isn't allowed as an ONBUILD trigger")
  else
    modify_cfg (fun c => set_OnBuild (OnBuild c ++ [trigger]) c);;
    cfg ← get_cfg;
    commit EmptyString (Cmd cfg) ("ONBUILD " +:+ trigger).

Definition CmdMaintainer (name : string) : M unit :=
  modify_b (set_maintainer name);;
  cfg ← get_cfg;
  commit EmptyString (Cmd cfg) ("MAINTAINER " +:+ name).

Definition buildCmdFromJson (args : string) : list string :=
  match json_Unmarshal lib args with
  | Some cmd => cmd
  | None => ["/bin/sh"; "-c"; args]
  end.

Definition CmdRun (args : string) : M unit :=
  b ← get_b;
  if strings.is_empty (image b) then
    throw "Please provide a source image with `from` prior to run"
  else
    parsed ← check (runconfig_Parse lib (image b :: buildCmdFromJson args));
    cfg ← get_cfg;
    let cmd := Cmd cfg in
    modify_cfg (set_Cmd (Cmd parsed));;
    modify_cfg (fun c => runconfig_Merge lib c parsed);;
    defer_ (modify_cfg (set_Cmd cmd))
      (hit ← probeCache;
       if (hit : bool) then pure tt
       else
         c ← create;
         _ ← sys (Mount c);
         defer_ (sys (Unmount c)) (run c;; commit c cmd "run")).

Definition FindEnvKey (key : string) : M Z :=
  cfg ← get_cfg;
  pure (FindEnvKey_loop key 0 (Env cfg)).

Definition ReplaceEnvMatches (value : string) : M string :=
  cfg ← get_cfg;
  match ReplaceEnvMatches_in (Env cfg) value with
  | Some v => pure v
  | None => panic "index out of range"
  end.

Definition CmdEnv (args : string) : M unit :=
  match strings.SplitN2 args " " with
  | [tmp0; tmp1] =>
      let key := strings.Trim tmp0 blank_cutset in
      let value := strings.Trim tmp1 blank_cutset in
      envKey ← FindEnvKey key;
      replacedValue ← ReplaceEnvMatches value;
      let replacedVar := key +:+ "=" +:+ replacedValue in
      (if (0 <=? envKey)%Z then
         modify_cfg (fun c => set_Env (<[Z.to_nat envKey := replacedVar]> (Env c)) c)
       else
         modify_cfg (fun c => set_Env (Env c ++ [replacedVar]) c));;
      cfg ← get_cfg;
      commit EmptyString (Cmd cfg) ("ENV " +:+ replacedVar)
  | _ => throw "Invalid ENV format"
  end.

Definition CmdCmd (args : string) : M unit :=
  let cmd := buildCmdFromJson args in
  modify_cfg (set_Cmd cmd);;
  commit EmptyString cmd ("CMD " +:+ Sprint_strings cmd);;
  modify_b (set_cmdSet true).

Definition CmdEntrypoint (args : string) : M unit :=
  let entrypoint := buildCmdFromJson args in
  modify_cfg (set_Entrypoint entrypoint);;
  b ← get_b;
  when (negb (cmdSet b)) (modify_cfg (set_Cmd []));;
  cfg ← get_cfg;
  commit EmptyString (Cmd cfg) ("ENTRYPOINT " +:+ Sprint_strings entrypoint).

Definition CmdExpose (args : string) : M unit :=
  let portsTab := strings.Split args " " in
  cfg ← get_cfg;
  ports ← check (ParsePortSpecs lib (portsTab ++ PortSpecs cfg));
  modify_cfg (fun c => set_ExposedPorts (ExposedPorts c ∪ ports) c);;
  modify_cfg (set_PortSpecs []);;
  cfg ← get_cfg;
  commit EmptyString (Cmd cfg) ("EXPOSE " +:+ Sprint_ports lib ports).

Definition CmdUser (args : string) : M unit :=
  modify_cfg (set_User args);;
  cfg ← get_cfg;
  commit EmptyString (Cmd cfg) ("USER " +:+ args).

Definition CmdInsert (args : string) : M unit :=
  throw "INSERT has been deprecated. Please use ADD instead".

(** [workdir[0]] is an index expression: it panics on the empty string. *)
Definition CmdWorkdir (workdir : string) : M unit :=
  match workdir with
  | EmptyString => panic "index out of range"
  | String c _ =>
      (if Ascii.eqb c "/" then modify_cfg (set_WorkingDir workdir)
       else
         cfg ← get_cfg;
         when (strings.is_empty (WorkingDir cfg))
              (modify_cfg (set_WorkingDir "/"));;
         modify_cfg (fun c => set_WorkingDir (path.Join (WorkingDir c) workdir) c));;
      cfg ← get_cfg;
      commit EmptyString (Cmd cfg) ("WORKDIR " +:+ workdir)
  end.

Definition CmdVolume (args : string) : M unit :=
  if strings.is_empty args then throw "Volume cannot be empty"
  else
    let volume :=
      match json_Unmarshal lib args with
      | Some v => v
      | None => [args]
      end in
    modify_cfg (fun c => set_Volumes (Volumes c ∪ list_to_set volume) c);;
    cfg ← get_cfg;
    commit EmptyString (Cmd cfg) ("VOLUME " +:+ args).

(** *** COPY and ADD *)

Definition no_such_file (orig : string) : error :=
  orig +:+ ": no such file or directory".

Definition forbidden_path (orig origPath : string) : error :=
  "Forbidden path outside the build context: " +:+ orig +:+ " ("
  +:+ origPath +:+ ")".

Definition checkPathForAddition (orig : string) : M unit :=
  b ← get_b;
  let origPath := path.Join (contextPath b) orig in
  r ← sys (EvalSymlinks origPath);
  match r with
  | inl err =>
      if os_IsNotExist lib err then throw (no_such_file orig) else throw err
  | inr p =>
      let origPath := p in
      if negb (strings.HasPrefix origPath (contextPath b)) then
        throw (forbidden_path orig origPath)
      else
        r ← sys (Stat origPath);
        match r with
        | inl err =>
            if os_IsNotExist lib err then throw (no_such_file orig)
            else throw err
        | inr _ => pure tt
        end
  end.

Definition fixPermissions (destination : string) (uid gid : Z) : M unit :=
  r ← sys (WalkLchown destination uid gid);
  check_err r.

Definition copyAsDirectory (source destination : string)
  (destinationExists : bool) : M unit :=
  r ← sys (CopyWithTar source destination);
  check_err r;;
  if destinationExists then
    r ← sys (ReadDir source);
    files ← check r;
    for_each files (fun file =>
      fixPermissions (path.Join destination file) 0 0)
  else fixPermissions destination 0 0.

Definition addContext (container orig dest : string) (decompress : bool)
  : M unit :=
  b ← get_b;
  root ← sys (RootfsPath container);
  let origPath := path.Join (contextPath b) orig in
  let destPath := path.Join root dest in
  destPath ←
    (if negb (String.eqb destPath root) then
       r ← sys (FollowSymlinkInScope destPath root);
       check r
     else pure destPath);
  let destPath :=
    if strings.HasSuffix dest "/" || String.eqb dest "."
    then destPath +:+ "/" else destPath in
  r ← sys (Stat destPath);
  '(destExists, destIsDir) ←
    match r with
    | inl err =>
        if negb (os_IsNotExist lib err) then throw err
        else pure (false, false)
    | inr isDir => pure (true, isDir)
    end;
  r ← sys (Stat origPath);
  match r with
  | inl err =>
      if os_IsNotExist lib err then throw (no_such_file orig) else throw err
  | inr isDir =>
      if (isDir : bool) then copyAsDirectory origPath destPath destExists
      else
        untarred ←
          (if decompress then
             let tarDest :=
               if strings.HasSuffix destPath "/" then path.Dir destPath
               else destPath in
             r ← sys (UntarPath origPath tarDest);
             pure (bool_decide (r = None))
           else pure false);
        if (untarred : bool) then pure tt
        else
          r ← sys (MkdirAll (path.Dir destPath));
          check_err r;;
          r ← sys (CopyWithTar origPath destPath);
          check_err r;;
          let resPath :=
            if destExists && destIsDir
            then path.Join destPath (path.Base origPath) else destPath in
          fixPermissions resPath 0 0
  end.

Definition nop_Cmd (cmdName what dest : string) : list string :=
  ["/bin/sh"; "-c"; "#(nop) " +:+ cmdName +:+ " " +:+ what +:+ " in " +:+ dest].

(** [runContextCommand], lines 610 to 672: the download of a remote
    source.  [k] is the rest of the function, with [origPath], [destPath]
    and [remoteHash] as the block leaves them; the removal of the
    temporary directory is deferred to the end of the function. *)
Definition fetch_remote (orig dest : string)
  (k : string -> string -> string -> M unit) : M unit :=
  b ← get_b;
  r ← sys (Download orig);
  resp ← check r;
  r ← sys (TempDir (contextPath b) "docker-remote");
  tmpDirName ← check r;
  let tmpFileName := path.Join tmpDirName "tmp" in
  r ← sys (OpenFile tmpFileName);
  tmpFile ← check r;
  defer_ (sys (RemoveAll tmpDirName))
    (r ← sys (CopyBody tmpFile resp);
     match r with
     | Some err => sys (CloseFile tmpFile);; throw err
     | None =>
         sys (CloseFile tmpFile);;
         r ← sys (UtimesNano tmpFileName);
         check_err r;;
         let origPath := path.Join (path.Base tmpDirName) (path.Base tmpFileName) in
         r ← sys (ArchiveTar tmpFileName);
         reader ← check r;
         r ← sys (TarSumCopy reader);
         remoteHash ← check r;
         sys (CloseReader reader);;
         destPath ←
           (if strings.HasSuffix dest "/" then
              '(upath, ustring) ← check (url_Parse lib orig);
              let upath :=
                if strings.HasSuffix upath "/"
                then regexp.take (String.length upath - 1) upath
                else upath in
              let filename := path.last_component upath in
              if strings.is_empty filename then
                throw ("cannot determine filename from url: " +:+ ustring)
              else pure (dest +:+ filename)
            else pure dest);
         k origPath destPath remoteHash
     end).

(** [runContextCommand], lines 686 to 711: the hash of the source, and
    [origPath] as the file branch leaves it. *)
Definition context_hash (sums : gmap string string)
  (origPath remoteHash : string) : M (string * string) :=
  b ← get_b;
  if negb (strings.is_empty remoteHash) then pure (remoteHash, origPath)
  else
    r ← sys (Stat (path.Join (contextPath b) origPath));
    isDir ← check r;
    if (isDir : bool) then
      let absOrigPath := path.Join (contextPath b) origPath in
      let subfiles :=
        (map_to_list sums)
          ≫= (fun '(file, sum) =>
                if strings.HasPrefix (path.Join (contextPath b) file) absOrigPath
                then [sum] else []) in
      let subfiles := merge_sort String.le subfiles in
      pure ("dir:" +:+ sha256_hex lib (strings.Join subfiles ","), origPath)
    else
      match origPath with
      | EmptyString => panic "index out of range"
      | String c rest =>
          let origPath :=
            if Ascii.eqb c "/" && (1 <? String.length origPath)%nat
            then rest else origPath in
          let origPath := strings.TrimPrefix origPath "./" in
          match sums !! origPath with
          | Some h => pure ("file:" +:+ h, origPath)
          | None => pure (EmptyString, origPath)
          end
      end.

(** [runContextCommand], lines 712 to 720: the probe of the cache with
    the hash in the command.  [None] is the [return nil] of a hit that is
    used; otherwise [origPath] as it is. *)
Definition probe_with_hash (cmdName dest hash origPath : string)
  : M (option string) :=
  modify_cfg (set_Cmd (nop_Cmd cmdName hash dest));;
  hit ← probeCache;
  if (hit : bool) && negb (strings.is_empty hash) then pure None
  else pure (Some origPath).

(** [runContextCommand], lines 679 to 721 *)
Definition context_probe (cmdName dest origPath remoteHash : string)
  : M (option string) :=
  b ← get_b;
  if utilizeCache b then
    let sums := default ∅ (context b) in
    '(hash, origPath) ← context_hash sums origPath remoteHash;
    probe_with_hash cmdName dest hash origPath
  else pure (Some origPath).

(** [runContextCommand], lines 675 to 745 *)
Definition add_from_context (allowDecompression isRemote : bool)
  (cmdName orig dest : string) (cmd : list string)
  (origPath destPath remoteHash : string) : M unit :=
  checkPathForAddition origPath;;
  probed ← context_probe cmdName dest origPath remoteHash;
  match probed with
  | None => pure tt
  | Some origPath =>
      cfg ← get_cfg;
      r ← sys (Create cfg);
      '(container, _) ← check r;
      add_tmpContainer container;;
      r ← sys (Mount container);
      check_err r;;
      defer_ (sys (Unmount container))
        (let decompress := negb (negb allowDecompression || isRemote) in
         addContext container origPath destPath decompress;;
         commit container cmd (cmdName +:+ " " +:+ orig +:+ " in " +:+ dest))
  end.

Definition runContextCommand (args : string)
  (allowRemote allowDecompression : bool) (cmdName : string) : M unit :=
  b ← get_b;
  if bool_decide (context b = None) then
    throw ("No context given. Impossible to use " +:+ cmdName)
  else
    match strings.SplitN2 args " " with
    | [tmp0; tmp1] =>
        orig ← ReplaceEnvMatches (strings.Trim tmp0 blank_cutset);
        dest ← ReplaceEnvMatches (strings.Trim tmp1 blank_cutset);
        cfg ← get_cfg;
        let cmd := Cmd cfg in
        modify_cfg (set_Cmd (nop_Cmd cmdName orig dest));;
        defer_ (modify_cfg (set_Cmd cmd))
          (modify_cfg (set_Image (image b));;
           let isRemote := IsURL lib orig in
           if isRemote && negb allowRemote then
             throw ("Source can't be an URL for " +:+ cmdName)
           else if IsURL lib orig then
             fetch_remote orig dest
               (add_from_context allowDecompression isRemote cmdName orig
                                 dest cmd)
           else
             add_from_context allowDecompression isRemote cmdName orig dest
                              cmd orig dest EmptyString)
    | _ => throw ("Invalid " +:+ cmdName +:+ " format")
    end.

Definition CmdCopy (args : string) : M unit :=
  runContextCommand args false false "COPY".

Definition CmdAdd (args : string) : M unit :=
  runContextCommand args true true "ADD".

(** *** [BuildStep] and [CmdFrom]

    [BuildStep] finds the handler by reflection on the name of the
    method; [CmdFrom] runs the triggers of the base image through
    [BuildStep].  The handler of FROM is a parameter of the dispatch, and
    [BuildStep] a parameter of the loop over the triggers, so that the
    two can be tied together below. *)

Section Dispatch.

Variable handler_of_from : string -> M unit.

(** [reflect.TypeOf(b).MethodByName(name)]: the exported methods of
    [*buildFile] whose name starts with [Cmd]. *)
Definition MethodByName (name : string) : option (string -> M unit) :=
  if String.eqb name "CmdFrom" then Some handler_of_from
  else if String.eqb name "CmdOnbuild" then Some CmdOnbuild
  else if String.eqb name "CmdMaintainer" then Some CmdMaintainer
  else if String.eqb name "CmdRun" then Some CmdRun
  else if String.eqb name "CmdEnv" then Some CmdEnv
  else if String.eqb name "CmdCmd" then Some CmdCmd
  else if String.eqb name "CmdEntrypoint" then Some CmdEntrypoint
  else if String.eqb name "CmdExpose" then Some CmdExpose
  else if String.eqb name "CmdUser" then Some CmdUser
  else if String.eqb name "CmdInsert" then Some CmdInsert
  else if String.eqb name "CmdCopy" then Some CmdCopy
  else if String.eqb name "CmdWorkdir" then Some CmdWorkdir
  else if String.eqb name "CmdVolume" then Some CmdVolume
  else if String.eqb name "CmdAdd" then Some CmdAdd
  else None.

(** The name that [BuildStep] looks up for an instruction, which it has
    put in lower case: [instruction[:1]] panics on the empty string. *)
Definition method_name (instruction : string) : option string :=
  match instruction with
  | EmptyString => None
  | String c rest =>
      Some ("Cmd" +:+ ToUpper lib (String c EmptyString)
            +:+ ToLower lib rest)
  end.

Definition BuildStep_with (name expression : string) : M unit :=
  out_print ("Step " +:+ name +:+ " : " +:+ expression +:+ LF_string);;
  match strings.SplitN2 expression " " with
  | [tmp0; tmp1] =>
      let instruction := ToLower lib (strings.Trim tmp0 " ") in
      let arguments := strings.Trim tmp1 " " in
      match method_name instruction with
      | None => panic "slice bounds out of range"
      | Some mname =>
          match MethodByName mname with
          | None =>
              err_print ("# Skipping unknown instruction "
                         +:+ ToUpper lib instruction +:+ LF_string)
          | Some method =>
              method arguments;;
              b ← get_b;
              out_print (" ---> " +:+ TruncateID (image b) +:+ LF_string)
          end
      end
  | _ => throw "Invalid Dockerfile format"
  end.

End Dispatch.

Section Triggers.

Variable BuildStep_of_trigger : string -> string -> M unit.

(** [CmdFrom], lines 219 to 232: [n] is the index of the head of the
    list. *)
Fixpoint run_triggers (n : nat) (onBuildTriggers : list string) : M unit :=
  match onBuildTriggers with
  | [] => pure tt
  | step :: rest =>
      let stepInstruction := trigger_instruction lib step in
      if String.eqb stepInstruction "ONBUILD" then
        throw ("Source image contains forbidden chained `ONBUILD ONBUILD` trigger: "
               +:+ step)
      else if String.eqb stepInstruction "MAINTAINER"
              || String.eqb stepInstruction "FROM" then
        throw ("Source image contains forbidden " +:+ stepInstruction
               +:+ " trigger: " +:+ step)
      else
        BuildStep_of_trigger ("onbuild-" +:+ pretty n) step;;
        run_triggers (S n) rest
  end.

(** [CmdFrom], lines 207 to 217: a default [PATH] for a config with no
    environment, and the triggers of the config, taken out of it. *)
Definition take_triggers : M (list string) :=
  cfg ← get_cfg;
  when (bool_decide (Env cfg = []))
       (modify_cfg (fun c => set_Env (Env c ++ ["PATH=" +:+ DefaultPathEnv lib]) c));;
  cfg ← get_cfg;
  let nTriggers := length (OnBuild cfg) in
  when (negb (nTriggers =? 0)%nat)
       (err_print ("# Executing " +:+ pretty nTriggers
                   +:+ " build triggers" +:+ LF_string));;
  let onBuildTriggers := OnBuild cfg in
  modify_cfg (set_OnBuild []);;
  pure onBuildTriggers.

(** [CmdFrom], lines 202 to 217: the image becomes the base of the
    build, and its config the config of the build. *)
Definition adopt_image (img : ImageObj) : M (list string) :=
  modify_b (set_image (img_ID img));;
  fresh ← alloc empty_Config;
  modify_b (set_config fresh);;
  match img_Config img with
  | Some p => modify_b (set_config p)
  | None => pure tt
  end;;
  take_triggers.

(** The image object that a lookup gives: its config, if it has one,
    is an object of its own. *)
Definition image_object (d : ImageData) : M ImageObj :=
  match data_Config d with
  | Some c => p ← alloc c; pure (mkImageObj (data_ID d) (Some p))
  | None => pure (mkImageObj (data_ID d) None)
  end.

(** [CmdFrom], lines 172 to 201 *)
Definition resolve_image (name : string) : M ImageObj :=
  r ← sys (LookupImage name);
  match r with
  | inr d => image_object d
  | inl err =>
      if Graph_IsNotExist lib err then
        b ← get_b;
        let '(remote, tag) := ParseRepositoryTag lib name in
        pullRegistryAuth ←
          (if (0 <? size (configFile b))%nat then
             endpoint ← check (ResolveRepositoryName lib remote);
             pure (ResolveAuthConfig lib (configFile b) endpoint)
           else pure (authConfig b));
        r ← sys (PullJob remote tag (sf_json b) pullRegistryAuth);
        check_err r;;
        r ← sys (LookupImage name);
        d ← check r;
        image_object d
      else throw err
  end.

Definition CmdFrom_with (name : string) : M unit :=
  img ← resolve_image name;
  onBuildTriggers ← adopt_image img;
  run_triggers 0 onBuildTriggers.

End Triggers.

(** A trigger is never a FROM: [run_triggers] refuses it before
    [BuildStep] sees it, so the handler of FROM given to the dispatch of a
    trigger is never called (see [trigger_never_FROM] below, and what it
    asks of the case tables, which decide what reads FROM). *)
Definition BuildStep_trigger : string -> string -> M unit :=
  BuildStep_with (fun _ => panic "unreachable: FROM as a trigger").

Definition CmdFrom : string -> M unit := CmdFrom_with BuildStep_trigger.

Definition BuildStep : string -> string -> M unit := BuildStep_with CmdFrom.

(** *** [Build] *)

Definition ErrDockerfileEmpty : error := "Dockerfile cannot be empty".

(** [Build], lines 898 to 912: the loop over the lines. *)
Fixpoint build_lines (stepN : nat) (lines : list string) : M unit :=
  match lines with
  | [] => pure tt
  | line :: rest =>
      let line := normalize_line line in
      if strings.is_empty line then build_lines stepN rest
      else
        fun s =>
          match BuildStep (pretty stepN) line s with
          | (Ok _, s') =>
              (b ← get_b;
               when (rm b) clearTmp;;
               build_lines (S stepN) rest) s'
          | (Err e, s') =>
              (b ← get_b;
               when (forceRm b) clearTmp;;
               throw e) s'
          | (Panic msg, s') => (Panic msg, s')
          end
  end.

(** [Build].  The unpacking of the context answers the sums of the files
    it has read, which are those of [b.context], and its error if it has
    one. *)
Definition Build : M string :=
  r ← sys (TempDir EmptyString "docker-build");
  tmpdirPath ← check r;
  r ← sys DecompressStream;
  check_err r;;
  r ← sys (UntarContext tmpdirPath);
  let '(sums, err) := r in
  modify_b (set_context (Some sums));;
  check_err err;;
  defer_ (sys (RemoveAll tmpdirPath))
    (modify_b (set_contextPath tmpdirPath);;
     let filename := path.Join tmpdirPath "Dockerfile" in
     r ← sys (Stat filename);
     if match r with inl err => os_IsNotExist lib err | inr _ => false end
     then throw "Can't build a directory with no Dockerfile"
     else
       r ← sys (ReadFile filename);
       fileBytes ← check r;
       if strings.is_empty fileBytes then throw ErrDockerfileEmpty
       else
         let dockerfile := preprocess fileBytes in
         build_lines 0 (strings.Split dockerfile regexp.LF);;
         b ← get_b;
         if negb (strings.is_empty (image b)) then
           out_print ("Successfully built " +:+ TruncateID (image b)
                      +:+ LF_string);;
           pure (image b)
         else
           throw ("No image was generated. This may be because the Dockerfile does not, like, do anything."
                  +:+ LF_string)).

(** [NewBuildFile]: the struct, with a fresh empty config. *)
Definition NewBuildFile (w : W) (verbose_ utilizeCache_ rm_ forceRm_ : bool)
  (json : bool) (auth : AuthConfig) (authConfigFile : ConfigFile) : state :=
  mkState
    (mkBuildFile EmptyString EmptyString 0 EmptyString None verbose_
                 utilizeCache_ rm_ forceRm_ auth authConfigFile ∅ ∅ json
                 false)
    [empty_Config] w [] [] [].

End Builder.

Arguments mkState {W} _ _ _ _ _ _.
Arguments bf {W} _.
Arguments heap {W} _.
Arguments world {W} _.
Arguments calls {W} _.
Arguments outStream {W} _.
Arguments errStream {W} _.

(** ** A small daemon to run the builder on

    The examples below run the builder on collaborators that are as plain
    as can be: one base image, a file system with no symbolic link in which
    every path exists and only the context root is a directory, a cache
    that always answers the same, containers and images numbered in the
    order of their creation. *)

Module Demo.

Record setup : Type := mkSetup {
  (** what [LookupImage] answers *)
  base : ImageData;
  (** what [ImageGetCached] answers *)
  cached : option string;
  (** whether [Create] fails *)
  create_fails : bool;
  (** the one directory of the file system *)
  root : string
}.

Definition lib : Lib :=
  mkLib "/usr/local/sbin:/usr/local/bin:/usr/sbin:/usr/bin:/sbin:/bin"
        (strings.map_bytes strings.upper_byte)
        (strings.map_bytes strings.lower_byte)
        (fun _ => None)
        (fun name => (name, "latest"))
        (fun remote => inr "https://index.docker.io/v1/")
        (fun _ _ => EmptyString)
        (fun _ => false)
        (fun err => String.eqb err "no such file or directory")
        (fun args =>
           match args with
           | img :: cmd => inr (set_Cmd cmd (set_Image img empty_Config))
           | [] => inl "Image not specified"
           end)
        (fun userConf _ => userConf)
        (fun specs => inr (list_to_set specs))
        (fun ports => Sprint_strings (elements ports))
        (fun s => strings.HasPrefix s "http://" || strings.HasPrefix s "https://")
        (fun s => inr (s, s))
        (fun s => s).

(** The state of the daemon is the number of containers and images made
    so far. *)
Definition host (d : setup) (c : call) : nat -> answer c * nat :=
  match c return nat -> answer c * nat with
  | LookupImage _ => fun n => (inr (base d), n)
  | ImageGetCached _ _ => fun n => (inr (cached d), n)
  | Create _ => fun n =>
      if create_fails d then (inl "cannot create container", n)
      else (inr ("container" +:+ pretty n, []), S n)
  | Get _ => fun n => (true, n)
  | Commit _ _ _ => fun n => (inr ("image" +:+ pretty n), S n)
  | WaitStop _ => fun n => (0%Z, n)
  | RootfsPath id => fun n => ("/rootfs/" +:+ id, n)
  | EvalSymlinks p => fun n => (inr p, n)
  | FollowSymlinkInScope p _ => fun n => (inr p, n)
  | Stat p => fun n => (inr (String.eqb p (root d)), n)
  | Download _ | TempDir _ _ | OpenFile _ | ArchiveTar _ | TarSumCopy _
  | ReadFile _ => fun n => (inl "not available", n)
  | ReadDir _ => fun n => (inr [], n)
  | DecompressStream => fun n => (None, n)
  | UntarContext _ => fun n => ((∅, None), n)
  | Unmount _ | SetPathArgs _ _ _ | CloseFile _ | RemoveAll _
  | CloseReader _ => fun n => (tt, n)
  | UntarPath _ _ => fun n => (Some "not a tar archive", n)
  | PullJob _ _ _ _ | Destroy _ | Mount _ | Start _ | Attach _
  | CopyBody _ _ | UtimesNano _ | CopyWithTar _ _ | WalkLchown _ _ _
  | MkdirAll _ => fun n => (None, n)
  end.

(** A build in progress: the struct as [NewBuildFile] makes it, then a
    base image, a context root, the sums of the context and a config. *)
Definition state_with (useCache : bool) (img ctx : string)
  (sums : option (gmap string string)) (cfg : Config) : state (W := nat) :=
  mkState
    (mkBuildFile img EmptyString 0 ctx sums true useCache false false
                 EmptyString ∅ ∅ ∅ false false)
    [cfg] 0 [] [] [].

End Demo.

(** ** Notions that the statements use *)

Section Notions.

Context {W : Type}.
Implicit Types s : @state W.

Definition with_out (line : string) s : @state W :=
  mkState (bf s) (heap s) (world s) (calls s) (outStream s ++ [line])
          (errStream s).
Definition with_err (line : string) s : @state W :=
  mkState (bf s) (heap s) (world s) (calls s) (outStream s)
          (errStream s ++ [line]).
Definition with_bf (b : buildFile) s : @state W :=
  mkState b (heap s) (world s) (calls s) (outStream s) (errStream s).
Definition with_heap (h : list Config) s : @state W :=
  mkState (bf s) h (world s) (calls s) (outStream s) (errStream s).
Definition with_cfg (c : Config) s : @state W :=
  with_heap (<[config (bf s) := c]> (heap s)) s.
Definition after_call (c : call) (w : W) s : @state W :=
  mkState (bf s) (heap s) w (calls s ++ [c]) (outStream s) (errStream s).

(** [b.config] leads to a config of the heap. *)
Definition config_allocated s : Prop := config (bf s) < length (heap s).

(** [Q] holds of what [m] ends in and of the state it leaves, run from
    [s]. *)
Definition post {A} (m : M A) s (Q : outcome A -> @state W -> Prop) : Prop :=
  Q (fst (m s)) (snd (m s)).

(** No run of [m] makes [b.config] point elsewhere. *)
Definition keeps_config {A} (m : M A) : Prop :=
  forall s, config (bf (snd (m s))) = config (bf s).

End Notions.

(** The commits among some calls: the author and the config of each. *)
Definition commits (new : list call) : list (string * Config) :=
  new ≫= (fun c =>
            match c with
            | Commit _ author cfg => [(author, cfg)]
            | _ => []
            end).

(** The key of an entry of [config.Env], as [FindEnvKey] and
    [ReplaceEnvMatches] read it: [strings.SplitN(envVar, "=", 2)[0]]. *)
Definition env_key (envVar : string) : string :=
  hd EmptyString (strings.SplitN2 envVar "=").

(** At most one entry per key. *)
Definition unique_keys (env : list string) : Prop :=
  NoDup (env_key <$> env).



Definition forbidden_trigger (lib : Lib) (trigger : string) : Prop :=
  In (trigger_instruction lib trigger) ["ONBUILD"; "MAINTAINER"; "FROM"].

(** What [CmdFrom] does to the config of the image it adopts: a default
    [PATH] when there is no environment, and no trigger left. *)
Definition seeded (lib : Lib) (c : Config) : Config :=
  match Env c with
  | [] => set_Env ["PATH=" +:+ DefaultPathEnv lib] c
  | _ :: _ => c
  end.

Definition adopted (lib : Lib) (c : Config) : Config :=
  set_OnBuild [] (seeded lib c).

(** ** The claims that the code does not meet, as they are stated *)

(** C1 as stated: a path that [checkPathForAddition] accepts resolves to a
    path that starts with the context root followed by a slash. *)
Definition accepted_is_proper_descendant {W} (lib : Lib)
  (host : forall c : call, W -> answer c * W) (s : state) (orig : string)
  : Prop :=
  fst (checkPathForAddition lib host orig s) = Ok tt ->
  exists p w,
    host (EvalSymlinks (path.Join (contextPath (bf s)) orig)) (world s)
    = (inr p, w)
    /\ strings.HasPrefix p (contextPath (bf s) +:+ "/") = true.

(** C2 as stated: when [CmdFrom] has succeeded, the config of the build
    is a copy, and the config that the image object holds is as the lookup
    gave it. *)
Definition image_config_untouched {W} (lib : Lib)
  (host : forall c : call, W -> answer c * W) (s : state) (name : string)
  : Prop :=
  forall img s1 s' p,
    resolve_image lib host name s = (Ok img, s1) ->
    CmdFrom lib host name s = (Ok tt, s') ->
    img_Config img = Some p ->
    heap s' !! p = heap s1 !! p.


(** ** The runs that the examples use *)

Module Scenario.

(** A base image with no config, no cache, the context in [/ctx]. *)
Definition plain : Demo.setup :=
  Demo.mkSetup (mkImageData "base" None) None false "/ctx".

(** A build after FROM, with a context, the cache off. *)
Definition building (cfg : Config) : state (W := nat) :=
  Demo.state_with false "base" "/ctx" (Some ∅) cfg.

(** A context in a temporary directory beside another one whose name
    starts the same. *)
Definition beside : state (W := nat) :=
  Demo.state_with false "base" "/tmp/docker-build1" (Some ∅) empty_Config.

(** A base image whose config has a command and a trigger that no
    instruction answers to. *)
Definition with_trigger : Demo.setup :=
  Demo.mkSetup
    (mkImageData "base"
       (Some (set_OnBuild ["FOO bar"] (set_Cmd ["b"] empty_Config))))
    None false "/ctx".

(** A base image that holds the trigger [WORKDIR ], with its space. *)
Definition with_workdir_trigger : Demo.setup :=
  Demo.mkSetup
    (mkImageData "base" (Some (set_OnBuild ["WORKDIR "] empty_Config)))
    None false "/ctx".

(** A cache that answers the image [cached] to every probe. *)
Definition cache_hit : Demo.setup :=
  Demo.mkSetup (mkImageData "base" None) (Some "cached") false "/ctx".

(** The same, and no container can be created. *)
Definition cache_hit_no_create : Demo.setup :=
  Demo.mkSetup (mkImageData "base" None) (Some "cached") true "/ctx".

(** A build with the cache on, whose context has no sum for any file. *)
Definition probing : state (W := nat) :=
  Demo.state_with true "base" "/ctx" (Some ∅) empty_Config.

(** The struct as [NewBuildFile] makes it, the cache off. *)
Definition fresh : state (W := nat) :=
  NewBuildFile 0 true false false false false EmptyString ∅.

(** A Dockerfile with an indented comment. *)
Definition indented_comment : string :=
  "FROM base" +:+ LF_string +:+ "  #comment" +:+ LF_string +:+ "RUN true".

(** [ENV A=B C] on a build whose environment holds [A=1]. *)
Definition key_with_equals : outcome unit * state (W := nat) :=
  CmdEnv (Demo.host plain) "A=B C" (building (set_Env ["A=1"] empty_Config)).

(** [COPY f /dst] with the cache on, the file [f] having no sum; and the
    same when no container can be created. *)
Definition copy_unsummed : outcome unit * state (W := nat) :=
  runContextCommand Demo.lib (Demo.host cache_hit) "f /dst" false false
                    "COPY" probing.

Definition copy_unsummed_no_create : outcome unit * state (W := nat) :=
  runContextCommand Demo.lib (Demo.host cache_hit_no_create) "f /dst" false
                    false "COPY" probing.

(** [COPY ../docker-build12/secret /dst], the context being in
    [/tmp/docker-build1]. *)
Definition copy_sibling : outcome unit * state (W := nat) :=
  runContextCommand Demo.lib (Demo.host plain) "../docker-build12/secret /dst"
                    false false "COPY" beside.

(** What a run leaves of interest: the base image, the address of the
    config, the config, the calls made. *)
Definition summary {A} (run : outcome A * state (W := nat))
  : outcome A * string * addr * Config * list call :=
  (run.1, image (bf run.2), config (bf run.2), deref run.2, calls run.2).

End Scenario.

(** * Properties *)

(** ** Lemmas on strings *)

Lemma SplitN2_no_sep s sep :
  strings.contains_byte sep s = false -> strings.SplitN2 s sep = [s].
Proof.
  induction s as [|c s IH]; simpl; [reflexivity|].
  intros H. apply orb_false_elim in H as [Hc Hs].
  rewrite Hc, (IH Hs). reflexivity.
Qed.

Lemma SplitN2_cut a b sep :
  strings.contains_byte sep a = false ->
  strings.SplitN2 (a +:+ String sep b) sep = [a; b].
Proof.
  induction a as [|c a IH]; simpl.
  - rewrite Ascii.eqb_refl. reflexivity.
  - intros H. apply orb_false_elim in H as [Hc Ha].
    rewrite Hc, (IH Ha). reflexivity.
Qed.

Lemma Trim_no_cut s c :
  strings.contains_byte c s = false ->
  strings.Trim s (String c EmptyString) = s.
Proof.
  intros H. unfold strings.Trim.
  assert (HL : strings.TrimLeft s (String c EmptyString) = s).
  { destruct s as [|d s]; [reflexivity|]. simpl in *.
    apply orb_false_elim in H as [Hd _].
    rewrite Ascii.eqb_sym in Hd. rewrite Hd. reflexivity. }
  rewrite HL. clear HL.
  induction s as [|d s IH]; [reflexivity|]. simpl in *.
  apply orb_false_elim in H as [Hd Hs]. rewrite (IH Hs).
  rewrite Ascii.eqb_sym in Hd. rewrite Hd. simpl.
  rewrite andb_false_r. reflexivity.
Qed.







Lemma env_key_compose key value :
  strings.contains_byte "=" key = false ->
  env_key (key +:+ "=" +:+ value) = key.
Proof.
  intros H. unfold env_key.
  change (key +:+ "=" +:+ value) with (key +:+ String "=" value).
  rewrite (SplitN2_cut _ _ _ H). reflexivity.
Qed.

Lemma commits_app l1 l2 : commits (l1 ++ l2) = commits l1 ++ commits l2.
Proof. unfold commits. apply bind_app. Qed.

(** ** Rules for running the builder step by step *)

Section Rules.

Context {W : Type} (host : forall c : call, W -> answer c * W).
Implicit Types s : @state W.

Lemma post_run {A} (m : M A) s Q r s' :
  post m s Q -> m s = (r, s') -> Q r s'.
Proof. unfold post. intros H E. rewrite E in H. exact H. Qed.

Lemma post_elim {A} (m : M A) s (Q : outcome A -> @state W -> Prop) :
  post m s Q -> forall r s', m s = (r, s') -> Q r s'.
Proof. intros H r s' E. exact (post_run m s Q r s' H E). Qed.

Lemma post_bind {A B} (m : M A) (f : A -> M B) s Q :
  post m s (fun r s1 =>
    match r with
    | Ok a => post (f a) s1 Q
    | Err e => Q (Err e) s1
    | Panic msg => Q (Panic msg) s1
    end) ->
  post (m ≫= f) s Q.
Proof.
  unfold post, mbind, M_bind. destruct (m s) as [[a|e|msg] s1]; simpl; auto.
Qed.

Lemma post_defer {A} (cleanup : M unit) (body : M A) s Q :
  post body s (fun r s1 => Q r (snd (cleanup s1))) ->
  post (defer_ cleanup body) s Q.
Proof. unfold post, defer_. destruct (body s) as [r s1]; simpl; auto. Qed.

Lemma post_sys (c : call) s Q :
  (forall a w, host c (world s) = (a, w) -> Q (Ok a) (after_call c w s)) ->
  post (sys host c) s Q.
Proof.
  unfold post, sys. intros H. destruct (host c (world s)) as [a w] eqn:E.
  simpl. apply H. reflexivity.
Qed.

Lemma post_pure {A} (a : A) s Q : Q (Ok a) s -> post (pure a) s Q.
Proof. auto. Qed.

Lemma post_throw {A} e s (Q : outcome A -> _) :
  Q (Err e) s -> post (throw e) s Q.
Proof. auto. Qed.

Lemma post_panic {A} msg s (Q : outcome A -> _) :
  Q (Panic msg) s -> post (panic msg) s Q.
Proof. auto. Qed.

Lemma post_get_b s Q : Q (Ok (bf s)) s -> post get_b s Q.
Proof. auto. Qed.

Lemma post_get_cfg s Q : Q (Ok (deref s)) s -> post get_cfg s Q.
Proof. auto. Qed.

Lemma post_modify_b f s Q :
  Q (Ok tt) (with_bf (f (bf s)) s) -> post (modify_b f) s Q.
Proof. auto. Qed.

Lemma post_modify_cfg f s Q :
  Q (Ok tt) (with_cfg (f (deref s)) s) -> post (modify_cfg f) s Q.
Proof. auto. Qed.

Lemma post_alloc c s Q :
  Q (Ok (length (heap s))) (with_heap (heap s ++ [c]) s) -> post (alloc c) s Q.
Proof. auto. Qed.

Lemma post_out_print line s Q :
  Q (Ok tt) (with_out line s) -> post (out_print line) s Q.
Proof. auto. Qed.

Lemma post_err_print line s Q :
  Q (Ok tt) (with_err line s) -> post (err_print line) s Q.
Proof. auto. Qed.

Lemma post_check {A} (r : error + A) s Q :
  match r with inl e => Q (Err e) s | inr a => Q (Ok a) s end ->
  post (check r) s Q.
Proof. destruct r; auto. Qed.

Lemma post_check_err (r : option error) s Q :
  match r with Some e => Q (Err e) s | None => Q (Ok tt) s end ->
  post (check_err r) s Q.
Proof. destruct r; auto. Qed.

Lemma post_when (c : bool) m s Q :
  (if c then post m s Q else Q (Ok tt) s) -> post (when c m) s Q.
Proof. destruct c; auto. Qed.

Lemma post_weaken {A} (m : M A) s (Q Q' : outcome A -> @state W -> Prop) :
  post m s Q -> (forall r s', Q r s' -> Q' r s') -> post m s Q'.
Proof. unfold post. auto. Qed.

(** A loop that only prints. *)
Lemma post_for_each_print (f : string -> string) l s Q :
  Q (Ok tt) (mkState (bf s) (heap s) (world s) (calls s)
                     (outStream s ++ map f l) (errStream s)) ->
  post (for_each l (fun x => out_print (f x))) s Q.
Proof.
  revert s. induction l as [|x l IH]; intros s H; simpl.
  - apply post_pure. rewrite app_nil_r in H. destruct s; exact H.
  - apply post_bind, post_out_print. cbv beta iota. apply IH.
    unfold with_out. cbn [bf heap world calls outStream errStream].
    rewrite <- app_assoc. exact H.
Qed.

(** A loop whose body cannot fail. *)
Lemma for_each_returns {A} (l : list A) (body : A -> M unit) :
  (forall x s, exists s', body x s = (Ok tt, s')) ->
  forall s, exists s', for_each l body s = (Ok tt, s').
Proof.
  intros Hb. induction l as [|x l IH]; intros s; simpl.
  - eexists; reflexivity.
  - unfold mbind, M_bind. destruct (Hb x s) as [s1 ->]. apply IH.
Qed.

Lemma clearTmp_returns s : exists s', clearTmp host s = (Ok tt, s').
Proof.
  unfold clearTmp, mbind, M_bind, get_b.
  apply for_each_returns. intros c s0.
  unfold sys. destruct (host (Get c) (world s0)) as [a w1]. simpl.
  destruct (host (Destroy c) w1) as [[e|] w2]; simpl; eexists; reflexivity.
Qed.

End Rules.

Arguments post : simpl never.
Arguments deref : simpl never.

(** One step of a run: the rule of the construct at the head. *)
Ltac step :=
  lazymatch goal with
  | |- post (mbind _ _) _ _ => apply post_bind
  | |- post (defer_ _ _) _ _ => apply post_defer
  | |- post (sys ?h ?c) ?s _ => refine (post_sys h c s _ _); intros ? ? ?
  | |- post (pure _) _ _ => apply post_pure
  | |- post (throw _) _ _ => apply post_throw
  | |- post (panic _) _ _ => apply post_panic
  | |- post get_b _ _ => apply post_get_b
  | |- post get_cfg _ _ => apply post_get_cfg
  | |- post (modify_b _) _ _ => apply post_modify_b
  | |- post (modify_cfg _) _ _ => apply post_modify_cfg
  | |- post (alloc _) _ _ => apply post_alloc
  | |- post (add_tmpContainer _) _ _ => apply post_modify_b
  | |- post (out_print _) _ _ => apply post_out_print
  | |- post (err_print _) _ _ => apply post_err_print
  | |- post (check _) _ _ => apply post_check
  | |- post (check_err _) _ _ => apply post_check_err
  | |- post (when _ _) _ _ => apply post_when
  end; cbv beta iota.

(** The state after some steps, field by field. *)
Ltac unstate :=
  unfold after_call, with_bf, with_cfg, with_heap, with_out, with_err in *;
  cbn [fst snd bf heap world calls outStream errStream
       image maintainer config cmdSet utilizeCache tmpContainers tmpImages
       set_image set_tmpImages set_tmpContainers set_maintainer set_cmdSet
       set_config set_context set_contextPath] in *.

(** [*b.config] after writes through [b.config]. *)
Ltac deref_simpl :=
  unfold deref in *; cbn [heap bf config] in *;
  rewrite ?list_insert_insert_eq in *;
  rewrite ?list_lookup_insert_eq in * by (rewrite ?length_insert; assumption);
  cbn [default from_option] in *; unfold id in *.

Ltac go := repeat (step; unstate; deref_simpl).

Ltac branch :=
  match goal with
  | |- match ?x with _ => _ end => is_var x; destruct x
  | |- post (match ?x with _ => _ end) _ _ => is_var x; destruct x
  | |- post (if ?c then _ else _) _ _ => destruct c eqn:?
  | |- post (for_each _ (fun x => out_print _)) _ _ =>
      apply post_for_each_print
  end.

Ltac run_all := repeat first [ progress go | branch ].

(** The calls that a run added, none or some of them commits. *)
Ltac added :=
  eexists; rewrite <- ?app_assoc; split; [reflexivity|];
  cbn [commits mbind list_bind app]; split;
  [repeat constructor | try discriminate; try (intros; discriminate)].

Ltac leaf host :=
  unfold modify_cfg, sys; unstate; deref_simpl;
  repeat match goal with
         | |- context [host ?c ?w] => destruct (host c w)
         end;
  unstate; deref_simpl;
  repeat split; rewrite ?length_insert; try reflexivity; try added.

(** ** [commit] *)

Section Commit.

Context {W : Type} (lib : Lib) (host : forall c : call, W -> answer c * W).
Implicit Types s : @state W.

(** What [commit_container] leaves as it was, and the commits it adds. *)
Definition commit_container_post (s0 : @state W) (author : string)
  (committed : Config) (r : outcome unit) (s' : @state W) : Prop :=
  config (bf s') = config (bf s0)
  /\ cmdSet (bf s') = cmdSet (bf s0)
  /\ heap s' = heap s0
  /\ exists new, calls s' = calls s0 ++ new
      /\ Forall (fun ac => ac = (author, committed)) (commits new)
      /\ (r = Ok tt -> commits new <> []).

Lemma commit_container_spec id autoCmd s :
  post (commit_container host id autoCmd) s
       (commit_container_post s (maintainer (bf s))
                              (set_Cmd autoCmd (deref s))).
Proof.
  unfold commit_container, commit_container_post. step. step.
  destruct a; simpl.
  - do 6 step. destruct a as [e|imageID]; simpl.
    + unstate. repeat split. added.
    + step. step. unstate. repeat split. added.
  - step. unstate. repeat split. added.
Qed.

(** What a commit with no container leaves: the config it found, with the
    base image written into it; every commit it makes is one of that config
    with [autoCmd] for a command; and with no cache, it commits. *)
Definition commit_nop_post (s0 : @state W) (autoCmd : list string)
  (r : outcome unit) (s' : @state W) : Prop :=
  let kept := set_Image (image (bf s0)) (deref s0) in
  config (bf s') = config (bf s0)
  /\ cmdSet (bf s') = cmdSet (bf s0)
  /\ length (heap s') = length (heap s0)
  /\ deref s' = kept
  /\ exists new, calls s' = calls s0 ++ new
      /\ Forall (fun ac => ac = (maintainer (bf s0), set_Cmd autoCmd kept))
                (commits new)
      /\ (r = Ok tt -> utilizeCache (bf s0) = false -> commits new <> []).

Lemma commit_nop_spec autoCmd comment s :
  config_allocated s ->
  strings.is_empty (image (bf s)) = false ->
  post (commit host EmptyString autoCmd comment) s (commit_nop_post s autoCmd).
Proof.
  intros Ha Him. unfold commit, commit_nop_post, config_allocated in *.
  step. step. rewrite Him. cbn [strings.is_empty].
  unfold probeCache. run_all.
  all: try (eapply post_weaken; [apply commit_container_spec|];
            unfold commit_container_post;
            intros r s' (Hp & Hc & Hh & new & Hcalls & Hall & Hok);
            revert Hp Hc Hh Hcalls Hall).
  all: try solve [leaf host].
  all: unstate; deref_simpl; intros Hp Hc Hh Hcalls Hall;
    unfold modify_cfg, sys;
    match goal with
    | |- context [host ?c ?w] => destruct (host c w)
    end;
    unstate; unfold deref; cbn [bf heap config];
    rewrite ?Hp, ?Hc, ?Hh, ?Hcalls; deref_simpl;
    repeat split; rewrite ?length_insert; try reflexivity;
    (eexists; rewrite <- ?app_assoc; split; [reflexivity|]);
    rewrite ?commits_app;
    repeat match goal with
           | |- context [commits [?c]] =>
               change (commits [c]) with (@nil (string * Config))
           end;
    cbn [app]; rewrite ?app_nil_r; split; [exact Hall | intros; auto].
Qed.

(** A commit with no base image is refused and changes nothing. *)
Lemma commit_without_image id autoCmd comment s :
  strings.is_empty (image (bf s)) = true ->
  commit host id autoCmd comment s
  = (Err "Please provide a source image with `from` prior to commit", s).
Proof.
  intros H. unfold commit, mbind, M_bind, get_b. simpl. rewrite H. reflexivity.
Qed.


End Commit.

(** ** Dispatch *)

Lemma upper_of_lower_byte a :
  strings.upper_byte (strings.lower_byte a) = strings.upper_byte a.
Proof. destruct a as [[] [] [] [] [] [] [] []]; vm_compute; reflexivity. Qed.

Lemma lower_byte_idempotent a :
  strings.lower_byte (strings.lower_byte a) = strings.lower_byte a.
Proof. destruct a as [[] [] [] [] [] [] [] []]; vm_compute; reflexivity. Qed.

Lemma upper_from_lower a b :
  strings.lower_byte (strings.lower_byte a) = b ->
  strings.upper_byte a = strings.upper_byte b.
Proof.
  rewrite lower_byte_idempotent. intros <-.
  symmetry. apply upper_of_lower_byte.
Qed.

(** [strings.Split] and [strings.SplitN] agree on the first field. *)
Lemma Split_first s sep :
  hd EmptyString (strings.Split s sep) = hd EmptyString (strings.SplitN2 s sep).
Proof.
  induction s as [|c s IH]; simpl; [reflexivity|].
  destruct (Ascii.eqb c sep); [reflexivity|].
  destruct (strings.Split s sep), (strings.SplitN2 s sep); simpl in *;
    congruence.
Qed.

Lemma trigger_instruction_first lib step :
  trigger_instruction lib step
  = ToUpper lib
      (strings.Trim (hd EmptyString (strings.SplitN2 step " ")) " ").
Proof.
  unfold trigger_instruction. rewrite <- Split_first.
  destruct (strings.Split step " ") eqn:E; [|reflexivity].
  exfalso. revert E. clear. induction step as [|c s IH]; simpl; [discriminate|].
  destruct (Ascii.eqb c " "); [discriminate|].
  destruct (strings.Split s " "); discriminate.
Qed.

(** On a text of ASCII bytes the tables are not looked at. *)
Lemma ToUpper_ascii lib s :
  strings.is_ascii s = true ->
  ToUpper lib s = strings.map_bytes strings.upper_byte s.
Proof. intros H. unfold ToUpper, strings.ToUpper. rewrite H. reflexivity. Qed.

Lemma ToLower_ascii lib s :
  strings.is_ascii s = true ->
  ToLower lib s = strings.map_bytes strings.lower_byte s.
Proof. intros H. unfold ToLower, strings.ToLower. rewrite H. reflexivity. Qed.

Lemma lower_byte_ascii a :
  (nat_of_ascii (strings.lower_byte a) <? 128)%nat
  = (nat_of_ascii a <? 128)%nat.
Proof. destruct a as [[] [] [] [] [] [] [] []]; vm_compute; reflexivity. Qed.

Lemma is_ascii_lower s :
  strings.is_ascii (strings.map_bytes strings.lower_byte s)
  = strings.is_ascii s.
Proof.
  induction s as [|c s IH]; [reflexivity|].
  cbn [strings.map_bytes strings.is_ascii]. rewrite lower_byte_ascii, IH.
  reflexivity.
Qed.

Lemma lower_twice_rom t :
  strings.map_bytes strings.lower_byte
    (strings.map_bytes strings.lower_byte t) = "rom" ->
  strings.map_bytes strings.upper_byte t = "ROM".
Proof.
  destruct t as [|a1 [|a2 [|a3 [|a4 t]]]]; simpl; try discriminate.
  intros H. injection H as H1 H2 H3.
  apply upper_from_lower in H1, H2, H3. rewrite H1, H2, H3. reflexivity.
Qed.

(** On a text of ASCII bytes, the method that [BuildStep] finds is
    [CmdFrom] only for a text that reads FROM in upper case. *)
Lemma method_name_CmdFrom_ascii lib t :
  strings.is_ascii t = true ->
  method_name lib (ToLower lib t) = Some "CmdFrom" ->
  ToUpper lib t = "FROM".
Proof.
  intros Ha Hn. rewrite (ToUpper_ascii _ _ Ha).
  rewrite (ToLower_ascii _ _ Ha) in Hn.
  destruct t as [|a0 t]; [discriminate|].
  cbn [strings.is_ascii] in Ha. apply andb_prop in Ha as [Ha0 Ht].
  cbn [strings.map_bytes method_name] in Hn.
  rewrite ToUpper_ascii in Hn
    by (cbn [strings.is_ascii]; rewrite lower_byte_ascii, Ha0; reflexivity).
  rewrite ToLower_ascii in Hn by (rewrite is_ascii_lower; exact Ht).
  cbn [strings.map_bytes] in Hn.
  injection Hn as H0 Hrest.
  rewrite upper_of_lower_byte in H0.
  apply lower_twice_rom in Hrest.
  cbn [strings.map_bytes]. rewrite H0, Hrest. reflexivity.
Qed.

(** What is asked of the case tables of package [unicode]: a text that is
    not all ASCII is not lowered to a text for which [BuildStep] finds
    [CmdFrom], unless it is raised to FROM.  Of Go's tables it holds: the
    runes from U+0080 on that they map to an ASCII letter are U+0130 and
    U+212A, lowered to i and k, and U+0131 and U+017F, raised to I and S,
    and FROM has none of these letters. *)
Definition tables_keep_FROM (lib : Lib) : Prop :=
  forall t,
    strings.is_ascii t = false ->
    method_name lib (ToLower lib t) = Some "CmdFrom" ->
    ToUpper lib t = "FROM".

(** The method that [BuildStep] finds is [CmdFrom] only for an instruction
    that reads FROM in upper case. *)
Lemma method_name_CmdFrom lib t mname :
  tables_keep_FROM lib ->
  method_name lib (ToLower lib t) = Some mname ->
  String.eqb mname "CmdFrom" = true ->
  ToUpper lib t = "FROM".
Proof.
  intros Htab Hn He. apply String.eqb_eq in He. subst mname.
  destruct (strings.is_ascii t) eqn:Ha.
  - apply method_name_CmdFrom_ascii; assumption.
  - apply Htab; assumption.
Qed.

(** The tables of the small daemon, which leave the bytes from 0x80 on as
    they are, are tables of that kind. *)
Lemma Demo_tables_keep_FROM : tables_keep_FROM Demo.lib.
Proof.
  assert (HU : forall s, ToUpper Demo.lib s
                         = strings.map_bytes strings.upper_byte s).
  { intros s. unfold ToUpper, strings.ToUpper.
    destruct (strings.is_ascii s); reflexivity. }
  assert (HL : forall s, ToLower Demo.lib s
                         = strings.map_bytes strings.lower_byte s).
  { intros s. unfold ToLower, strings.ToLower.
    destruct (strings.is_ascii s); reflexivity. }
  intros t _ Hn. rewrite HU. rewrite HL in Hn.
  destruct t as [|a0 t]; [discriminate|].
  cbn [strings.map_bytes method_name] in Hn. rewrite HU, HL in Hn.
  cbn [strings.map_bytes] in Hn.
  injection Hn as H0 Hrest.
  rewrite upper_of_lower_byte in H0.
  apply lower_twice_rom in Hrest.
  cbn [strings.map_bytes]. rewrite H0, Hrest. reflexivity.
Qed.

Section Dispatch.

Context {W : Type} (lib : Lib) (host : forall c : call, W -> answer c * W).
Implicit Types s : @state W.

(** The handler of FROM is the only one that depends on the parameter of
    the dispatch. *)
Lemma MethodByName_other (f g : string -> M unit) mname :
  String.eqb mname "CmdFrom" = false ->
  MethodByName lib host f mname = MethodByName lib host g mname.
Proof. intros H. unfold MethodByName. rewrite H. reflexivity. Qed.

(** A step that does not read FROM runs the same whatever the handler of
    FROM: [BuildStep] on a trigger, which [CmdFrom] has tested, is
    [BuildStep_trigger]. *)
Lemma trigger_never_FROM (f g : string -> M unit) name step s :
  tables_keep_FROM lib ->
  trigger_instruction lib step <> "FROM" ->
  BuildStep_with lib host f name step s = BuildStep_with lib host g name step s.
Proof.
  intros Htab Hne. rewrite trigger_instruction_first in Hne.
  unfold BuildStep_with, mbind, M_bind. simpl.
  destruct (strings.SplitN2 step " ") as [|tmp0 [|tmp1 [|]]]; try reflexivity.
  simpl in Hne.
  destruct (method_name lib (ToLower lib (strings.Trim tmp0 " "))) as [mname|]
    eqn:Hn; [|reflexivity].
  destruct (String.eqb mname "CmdFrom") eqn:He.
  - exfalso. apply Hne. eapply method_name_CmdFrom; eassumption.
  - rewrite (MethodByName_other f g mname He). reflexivity.
Qed.

End Dispatch.

(** ** [BuildStep] *)

Section Steps.

Context {W : Type} (lib : Lib) (host : forall c : call, W -> answer c * W).
Implicit Types s : @state W.

Definition banner (name expression : string) : string :=
  "Step " +:+ name +:+ " : " +:+ expression +:+ LF_string.

Lemma BuildStep_bare name expression s :
  strings.contains_byte " " expression = false ->
  BuildStep lib host name expression s
  = (Err "Invalid Dockerfile format", with_out (banner name expression) s).
Proof.
  intros H. unfold BuildStep, BuildStep_with.
  rewrite (SplitN2_no_sep _ _ H). reflexivity.
Qed.

Lemma BuildStep_unknown name instr args mname s :
  strings.contains_byte " " instr = false ->
  method_name lib (ToLower lib instr) = Some mname ->
  MethodByName lib host (CmdFrom lib host) mname = None ->
  BuildStep lib host name (instr +:+ String " " args) s
  = (Ok tt,
     with_err ("# Skipping unknown instruction "
               +:+ ToUpper lib (ToLower lib instr) +:+ LF_string)
       (with_out (banner name (instr +:+ String " " args)) s)).
Proof.
  intros Hsp Hname Hnone. unfold BuildStep, BuildStep_with.
  rewrite (SplitN2_cut _ _ _ Hsp), (Trim_no_cut _ _ Hsp), Hname.
  unfold mbind, M_bind. simpl. rewrite Hnone. reflexivity.
Qed.

(** What [BuildStep] does once it has found the method. *)
Lemma BuildStep_dispatch f name expression tmp0 tmp1 mname method s :
  strings.SplitN2 expression " " = [tmp0; tmp1] ->
  method_name lib (ToLower lib (strings.Trim tmp0 " ")) = Some mname ->
  MethodByName lib host f mname = Some method ->
  BuildStep_with lib host f name expression s
  = (method (strings.Trim tmp1 " ");;
     b ← get_b;
     out_print (" ---> " +:+ TruncateID (image b) +:+ LF_string))
      (with_out (banner name expression) s).
Proof.
  intros Hsplit Hname Hmethod. unfold BuildStep_with.
  rewrite Hsplit, Hname, Hmethod. reflexivity.
Qed.

(** C9. A step that holds no space, be it a known keyword such as RUN,
    ends [BuildStep] with the error of an invalid format, after the banner
    and nothing else; the loop of [Build] stops on it with that error.  A
    step whose instruction no method answers to, followed by an argument,
    ends well instead: a warning is written and nothing else is done. *)
Theorem bare_keyword_fails_build name expression s :
  strings.contains_byte " " expression = false ->
  BuildStep lib host name expression s
  = (Err "Invalid Dockerfile format", with_out (banner name expression) s)
  /\ (forall stepN line rest,
        normalize_line line = expression ->
        expression <> EmptyString ->
        exists s', build_lines lib host stepN (line :: rest) s
                   = (Err "Invalid Dockerfile format", s'))
  /\ (forall instr args mname,
        strings.contains_byte " " instr = false ->
        method_name lib (ToLower lib instr) = Some mname ->
        MethodByName lib host (CmdFrom lib host) mname = None ->
        BuildStep lib host name (instr +:+ String " " args) s
        = (Ok tt,
           with_err ("# Skipping unknown instruction "
                     +:+ ToUpper lib (ToLower lib instr) +:+ LF_string)
             (with_out (banner name (instr +:+ String " " args)) s))).
Proof.
  intros Hsp. split; [apply BuildStep_bare, Hsp|]. split.
  - intros stepN line rest Hline Hne. simpl. rewrite Hline.
    destruct expression as [|c l]; [congruence|]. simpl.
    rewrite (BuildStep_bare _ _ s Hsp).
    unfold mbind, M_bind, get_b, when.
    destruct (forceRm _).
    + destruct (clearTmp_returns host
                  (with_out (banner (pretty stepN) (String c l)) s)) as [s' Hs'].
      rewrite Hs'. eexists; reflexivity.
    + eexists; reflexivity.
  - intros instr args mname. apply BuildStep_unknown.
Qed.

(** ** Triggers *)

Lemma forbidden_cases trigger :
  forbidden_trigger lib trigger ->
  String.eqb (trigger_instruction lib trigger) "ONBUILD" = true
  \/ (String.eqb (trigger_instruction lib trigger) "ONBUILD" = false
      /\ (String.eqb (trigger_instruction lib trigger) "MAINTAINER"
          || String.eqb (trigger_instruction lib trigger) "FROM") = true).
Proof.
  unfold forbidden_trigger. intros [H|[H|[H|[]]]]; rewrite <- H; auto.
Qed.

Lemma CmdOnbuild_rejects trigger s :
  forbidden_trigger lib trigger ->
  exists e, CmdOnbuild lib host trigger s = (Err e, s).
Proof.
  intros H. unfold CmdOnbuild.
  destruct (forbidden_cases _ H) as [-> | [-> ->]]; eexists; reflexivity.
Qed.

(** The test follows the tables: with tables that raise the dotless i,
    U+0131, to I, as Go's do, the trigger [maıntaıner x] is refused. *)
Lemma dotless_MAINTAINER_is_refused s :
  unicode_ToUpper lib "maıntaıner" = "MAINTAINER" ->
  exists e, CmdOnbuild lib host "maıntaıner x" s = (Err e, s).
Proof.
  intros H. apply CmdOnbuild_rejects. right. left.
  unfold trigger_instruction.
  change (strings.Split "maıntaıner x" " ")
    with ["maıntaıner"; "x"].
  change (strings.Trim "maıntaıner" " ") with "maıntaıner".
  unfold ToUpper, strings.ToUpper.
  change (strings.is_ascii "maıntaıner") with false.
  cbv iota. symmetry. exact H.
Qed.

(** So does the dispatch: with tables that lower the Kelvin sign, U+212A,
    to k, as Go's do, the step [WORKDIR /x] is given to [CmdWorkdir]. *)
Lemma Kelvin_WORKDIR_is_dispatched name s :
  unicode_ToLower lib "WORKDIR" = "workdir" ->
  BuildStep lib host name "WORKDIR /x" s
  = (CmdWorkdir host "/x";;
     b ← get_b;
     out_print (" ---> " +:+ TruncateID (image b) +:+ LF_string))
      (with_out (banner name "WORKDIR /x") s).
Proof.
  intros H. unfold BuildStep.
  apply (BuildStep_dispatch _ name "WORKDIR /x" "WORKDIR" "/x"
           "CmdWorkdir" (CmdWorkdir host) s); [reflexivity| |reflexivity].
  change (strings.Trim "WORKDIR" " ") with "WORKDIR".
  unfold ToLower at 1. unfold strings.ToLower.
  change (strings.is_ascii "WORKDIR") with false.
  cbv iota. rewrite H. reflexivity.
Qed.




(** C10. [CmdWorkdir] on the empty string panics on [workdir[0]], before
    it reads or writes anything; [BuildStep] comes to it on the step
    [WORKDIR ] (with its space), and [CmdFrom] on an image that holds that
    step among its triggers. *)
Theorem CmdWorkdir_panics_on_empty_argument s :
  CmdWorkdir host EmptyString s = (Panic "index out of range", s)
  /\ BuildStep lib host "0" "WORKDIR " s
     = (Panic "index out of range", with_out (banner "0" "WORKDIR ") s)
  /\ (forall n rest,
        run_triggers lib (BuildStep_trigger lib host) n ("WORKDIR " :: rest) s
        = (Panic "index out of range",
           with_out (banner ("onbuild-" +:+ pretty n) "WORKDIR ") s)).
Proof.
  split; [reflexivity|]. split; [reflexivity|]. intros n rest. reflexivity.
Qed.

End Steps.

(** ** Interpolation of the environment *)

(** C3. On the value [$FOO \$FOO] with [FOO=bar] in the environment, the
    expression finds the first occurrence only, the second being escaped;
    but the replacement is of every occurrence of the text [$FOO] in the
    value, and the escaped one is replaced too.  In the same way the name
    [FOOBAR], which has no entry, is rewritten when [FOO] has one; and of
    two references in braces that touch, the second is not replaced. *)
Theorem ReplaceEnvMatches_rewrites_escaped_twin :
  regexp.env_FindAllString "$FOO \$FOO" = ["$FOO"]
  /\ ReplaceEnvMatches_in ["FOO=bar"] "$FOO \$FOO" = Some "bar \bar"
  /\ ReplaceEnvMatches_in ["FOO=x"] "$FOOBAR $FOO" = Some "xBAR x"
  /\ ReplaceEnvMatches_in ["A=1"; "B=2"] "${A}${B}" = Some "1${B}".
Proof. repeat split; vm_compute; reflexivity. Qed.

(** ** Comments *)



(** [Build] then takes it for a step, and the build fails on it. *)
Lemma indented_comment_fails_build :
  fst (build_lines Demo.lib (Demo.host Scenario.plain) 0
         (strings.Split (preprocess Scenario.indented_comment) regexp.LF)
         Scenario.fresh)
  = Err "Invalid Dockerfile format".
Proof. vm_compute. reflexivity. Qed.

(** ** The paths of COPY and ADD *)

Section Paths.

Context {W : Type} (lib : Lib) (host : forall c : call, W -> answer c * W).
Implicit Types s : @state W.

(** What the test of [checkPathForAddition] gives.  A path that it
    accepts resolves, symbolic links followed, to a path that starts with
    the context root as a string, the root itself included, and that
    exists.  A path that resolves to one that does not start so is refused
    with the error of a forbidden path, after the resolution and before any
    other call; the rest of the instruction is then not run. *)
Theorem checkPathForAddition_prefix (orig : string) s :
  let ctx := contextPath (bf s) in
  let joined := path.Join ctx orig in
  (fst (checkPathForAddition lib host orig s) = Ok tt ->
   exists p w,
     host (EvalSymlinks joined) (world s) = (inr p, w)
     /\ strings.HasPrefix p ctx = true
     /\ exists isDir, fst (host (Stat p) w) = inr isDir)
  /\ (forall p w,
        host (EvalSymlinks joined) (world s) = (inr p, w) ->
        strings.HasPrefix p ctx = false ->
        checkPathForAddition lib host orig s
        = (Err (forbidden_path orig p), after_call (EvalSymlinks joined) w s)
        /\ forall allowDecompression isRemote cmdName orig0 dest cmd destPath
                  remoteHash,
            add_from_context lib host allowDecompression isRemote cmdName
                             orig0 dest cmd orig destPath remoteHash s
            = (Err (forbidden_path orig p),
               after_call (EvalSymlinks joined) w s)).
Proof.
  intros ctx joined.
  unfold add_from_context, checkPathForAddition, mbind, M_bind, get_b, sys.
  fold ctx. fold joined.
  destruct (host (EvalSymlinks joined) (world s)) as [[err|p] w] eqn:E; simpl.
  - split.
    + destruct (os_IsNotExist lib err); discriminate.
    + intros p w0 H. discriminate.
  - split.
    + destruct (strings.HasPrefix p ctx) eqn:Hp; simpl; [|discriminate].
      destruct (host (Stat p) w) as [[err|isDir] w1] eqn:Es; simpl.
      * destruct (os_IsNotExist lib err); discriminate.
      * intros _. exists p, w. rewrite Es. eauto.
    + intros p0 w0 H Hp. injection H as <- <-. rewrite Hp. simpl.
      split; reflexivity.
Qed.

End Paths.

Lemma checkPathForAddition_prefix_example :
  exists p w,
    Demo.host Scenario.plain (EvalSymlinks (path.Join "/ctx" "src/app")) 0
    = (inr p, w)
    /\ strings.HasPrefix p "/ctx" = true
    /\ exists isDir, fst (Demo.host Scenario.plain (Stat p) w) = inr isDir.
Proof.
  apply (proj1 (checkPathForAddition_prefix Demo.lib
                  (Demo.host Scenario.plain) "src/app"
                  (Scenario.building empty_Config))).
  vm_compute. reflexivity.
Defined.

(** The context root itself is accepted, as for [COPY . /app]: the path it
    resolves to does not start with the root and a slash. *)
Lemma context_root_is_accepted :
  ~ accepted_is_proper_descendant Demo.lib (Demo.host Scenario.plain)
      (Scenario.building empty_Config) ".".
Proof.
  unfold accepted_is_proper_descendant. intros H.
  destruct (H eq_refl) as (p & w & E & Hp).
  vm_compute in E. injection E as <- <-. vm_compute in Hp. discriminate.
Qed.

(** C1.  The test of [checkPathForAddition] is on strings, with no
    separator after the root.  With the context in [/tmp/docker-build1],
    the source [../docker-build12/secret] resolves to a path in the
    directory beside it, whose name starts with the name of the root.  The
    path is not the root and is not under it; yet it is accepted, and the
    COPY of it goes on: the file from outside the context is copied into
    the container, and the container is committed. *)
Theorem sibling_directory_escapes_context :
  let ctx := contextPath (bf Scenario.beside) in
  let orig := "../docker-build12/secret" in
  let p := "/tmp/docker-build12/secret" in
  ctx = "/tmp/docker-build1"
  /\ Demo.host Scenario.plain (EvalSymlinks (path.Join ctx orig)) 0
     = (inr p, 0)
  /\ p <> ctx
  /\ strings.HasPrefix p (ctx +:+ "/") = false
  /\ ~ accepted_is_proper_descendant Demo.lib (Demo.host Scenario.plain)
        Scenario.beside orig
  /\ (checkPathForAddition Demo.lib (Demo.host Scenario.plain) orig
                           Scenario.beside).1 = Ok tt
  /\ Scenario.copy_sibling.1 = Ok tt
  /\ In (CopyWithTar p "/rootfs/container0/dst")
        (calls Scenario.copy_sibling.2)
  /\ commits (calls Scenario.copy_sibling.2) <> [].
Proof.
  cbv zeta. split; [reflexivity|]. split; [vm_compute; reflexivity|].
  split; [discriminate|]. split; [vm_compute; reflexivity|].
  split.
  { unfold accepted_is_proper_descendant. intros H.
    destruct (H ltac:(vm_compute; reflexivity)) as (p & w & E & Hp).
    vm_compute in E. injection E as <- <-. vm_compute in Hp. discriminate. }
  split; [vm_compute; reflexivity|]. split; [vm_compute; reflexivity|].
  split; [vm_compute; auto 20|]. vm_compute. discriminate.
Qed.

(** ** The address of the config

    [CmdFrom] alone assigns [b.config]; every other handler writes through
    it. *)

Section Keeps.

Context {W : Type} (lib : Lib) (host : forall c : call, W -> answer c * W).
Implicit Types s : @state W.

Lemma keeps_bind {A B} (m : @M W A) (f : A -> @M W B) :
  keeps_config m -> (forall a, keeps_config (f a)) -> keeps_config (m ≫= f).
Proof.
  intros Hm Hf s. unfold mbind, M_bind. specialize (Hm s).
  destruct (m s) as [[a|e|msg] s1]; simpl in *; try exact Hm.
  rewrite Hf. exact Hm.
Qed.

Lemma keeps_defer {A} (cleanup : @M W unit) (body : @M W A) :
  keeps_config cleanup -> keeps_config body ->
  keeps_config (defer_ cleanup body).
Proof.
  intros Hc Hb s. unfold defer_. specialize (Hb s).
  destruct (body s) as [r s1]. simpl in *. rewrite Hc. exact Hb.
Qed.

Lemma keeps_pure {A} (a : A) : keeps_config (W:=W) (pure a).
Proof. intros s. reflexivity. Qed.
Lemma keeps_throw {A} e : keeps_config (W:=W) (A:=A) (throw e).
Proof. intros s. reflexivity. Qed.
Lemma keeps_panic {A} msg : keeps_config (W:=W) (A:=A) (panic msg).
Proof. intros s. reflexivity. Qed.
Lemma keeps_get_b : keeps_config (W:=W) get_b.
Proof. intros s. reflexivity. Qed.
Lemma keeps_get_cfg : keeps_config (W:=W) get_cfg.
Proof. intros s. reflexivity. Qed.
Lemma keeps_modify_cfg f : keeps_config (W:=W) (modify_cfg f).
Proof. intros s. reflexivity. Qed.
Lemma keeps_out_print l : keeps_config (W:=W) (out_print l).
Proof. intros s. reflexivity. Qed.
Lemma keeps_err_print l : keeps_config (W:=W) (err_print l).
Proof. intros s. reflexivity. Qed.
Lemma keeps_sys c : keeps_config (sys host c).
Proof. intros s. unfold sys. destruct (host c (world s)). reflexivity. Qed.
Lemma keeps_check {A} (r : error + A) : keeps_config (W:=W) (check r).
Proof. intros s. destruct r; reflexivity. Qed.
Lemma keeps_check_err r : keeps_config (W:=W) (check_err r).
Proof. intros s. destruct r; reflexivity. Qed.
Lemma keeps_modify_b f :
  (forall b, config (f b) = config b) -> keeps_config (W:=W) (modify_b f).
Proof. intros H s. simpl. apply H. Qed.
Lemma keeps_add_tmpContainer id : keeps_config (W:=W) (add_tmpContainer id).
Proof. intros s. reflexivity. Qed.
Lemma keeps_when c (m : @M W unit) :
  keeps_config (W:=W) m -> keeps_config (when c m).
Proof. intros H. destruct c; [exact H|apply keeps_pure]. Qed.
Lemma keeps_for_each {A} (l : list A) (body : A -> @M W unit) :
  (forall x, keeps_config (W:=W) (body x)) -> keeps_config (for_each l body).
Proof.
  intros H. induction l as [|x l IH]; simpl; [apply keeps_pure|].
  apply keeps_bind; [apply H|intros _; exact IH].
Qed.

End Keeps.

Create HintDb keeps.
#[global] Hint Resolve keeps_pure keeps_throw keeps_panic keeps_get_b
  keeps_get_cfg keeps_modify_cfg keeps_out_print keeps_err_print keeps_sys
  keeps_check keeps_check_err keeps_add_tmpContainer : keeps.

(** The rule of the construct at the head, as long as there is one. *)
Ltac keeps :=
  repeat (intros;
          lazymatch goal with
          | |- keeps_config (mbind _ _) => apply keeps_bind
          | |- keeps_config (defer_ _ _) => apply keeps_defer
          | |- keeps_config (for_each _ _) => apply keeps_for_each
          | |- keeps_config (when _ _) => apply keeps_when
          | |- keeps_config (modify_b _) =>
              apply keeps_modify_b; intros; reflexivity
          | |- keeps_config (sys ?h ?c) => exact (keeps_sys h c)
          | |- keeps_config (if ?c then _ else _) => destruct c
          | |- keeps_config (match ?x with _ => _ end) => destruct x
          | |- keeps_config _ => solve [auto with keeps]
          end).

Section KeepsHandlers.

Context {W : Type} (lib : Lib) (host : forall c : call, W -> answer c * W).
Implicit Types s : @state W.

Lemma keeps_probeCache : keeps_config (probeCache host).
Proof. unfold probeCache. keeps. Qed.
Hint Resolve keeps_probeCache : keeps.

Lemma keeps_commit_container id autoCmd :
  keeps_config (commit_container host id autoCmd).
Proof. unfold commit_container. keeps. Qed.
Hint Resolve keeps_commit_container : keeps.

Lemma keeps_commit id autoCmd comment :
  keeps_config (commit host id autoCmd comment).
Proof. unfold commit. keeps. Qed.
Hint Resolve keeps_commit : keeps.

Lemma keeps_create : keeps_config (create host).
Proof. unfold create. keeps. Qed.
Hint Resolve keeps_create : keeps.

Lemma keeps_run c : keeps_config (run host c).
Proof. unfold run. keeps. Qed.
Hint Resolve keeps_run : keeps.

Lemma keeps_ReplaceEnvMatches value :
  keeps_config (W:=W) (ReplaceEnvMatches value).
Proof. unfold ReplaceEnvMatches. keeps. Qed.
Hint Resolve keeps_ReplaceEnvMatches : keeps.

Lemma keeps_FindEnvKey key : keeps_config (W:=W) (FindEnvKey key).
Proof. unfold FindEnvKey. keeps. Qed.
Hint Resolve keeps_FindEnvKey : keeps.

Lemma keeps_CmdOnbuild a : keeps_config (CmdOnbuild lib host a).
Proof. unfold CmdOnbuild. keeps. Qed.
Lemma keeps_CmdMaintainer a : keeps_config (CmdMaintainer host a).
Proof. unfold CmdMaintainer. keeps. Qed.
Lemma keeps_CmdRun a : keeps_config (CmdRun lib host a).
Proof. unfold CmdRun. keeps. Qed.
Lemma keeps_CmdEnv a : keeps_config (CmdEnv host a).
Proof. unfold CmdEnv. keeps. Qed.
Lemma keeps_CmdCmd a : keeps_config (CmdCmd lib host a).
Proof. unfold CmdCmd. keeps. Qed.
Lemma keeps_CmdEntrypoint a : keeps_config (CmdEntrypoint lib host a).
Proof. unfold CmdEntrypoint. keeps. Qed.
Lemma keeps_CmdExpose a : keeps_config (CmdExpose lib host a).
Proof. unfold CmdExpose. keeps. Qed.
Lemma keeps_CmdUser a : keeps_config (CmdUser host a).
Proof. unfold CmdUser. keeps. Qed.
Lemma keeps_CmdInsert a : keeps_config (W:=W) (CmdInsert a).
Proof. unfold CmdInsert. keeps. Qed.
Lemma keeps_CmdWorkdir a : keeps_config (CmdWorkdir host a).
Proof. unfold CmdWorkdir. keeps. Qed.
Lemma keeps_CmdVolume a : keeps_config (CmdVolume lib host a).
Proof. unfold CmdVolume. keeps. Qed.

Lemma keeps_checkPathForAddition orig :
  keeps_config (checkPathForAddition lib host orig).
Proof. unfold checkPathForAddition. keeps. Qed.
Hint Resolve keeps_checkPathForAddition : keeps.

Lemma keeps_fixPermissions d u g : keeps_config (fixPermissions host d u g).
Proof. unfold fixPermissions. keeps. Qed.
Hint Resolve keeps_fixPermissions : keeps.

Lemma keeps_copyAsDirectory a b c : keeps_config (copyAsDirectory host a b c).
Proof. unfold copyAsDirectory. keeps. Qed.
Hint Resolve keeps_copyAsDirectory : keeps.

Lemma keeps_addContext a b c d : keeps_config (addContext lib host a b c d).
Proof. unfold addContext. keeps. Qed.
Hint Resolve keeps_addContext : keeps.

Lemma keeps_context_hash a b c : keeps_config (context_hash lib host a b c).
Proof. unfold context_hash. keeps. Qed.
Hint Resolve keeps_context_hash : keeps.

Lemma keeps_probe_with_hash a b c d :
  keeps_config (probe_with_hash host a b c d).
Proof. unfold probe_with_hash. keeps. Qed.
Hint Resolve keeps_probe_with_hash : keeps.

Lemma keeps_context_probe a b c d :
  keeps_config (context_probe lib host a b c d).
Proof. unfold context_probe. keeps. Qed.
Hint Resolve keeps_context_probe : keeps.

Lemma keeps_add_from_context a b c d e f g h i :
  keeps_config (add_from_context lib host a b c d e f g h i).
Proof. unfold add_from_context. keeps. Qed.
Hint Resolve keeps_add_from_context : keeps.

Lemma keeps_fetch_remote orig dest k :
  (forall a b c, keeps_config (k a b c)) ->
  keeps_config (fetch_remote lib host orig dest k).
Proof. intros Hk. unfold fetch_remote. keeps. Qed.

Lemma keeps_runContextCommand a b c d :
  keeps_config (runContextCommand lib host a b c d).
Proof.
  unfold runContextCommand. keeps.
  apply keeps_fetch_remote. intros. apply keeps_add_from_context.
Qed.

Lemma keeps_CmdCopy a : keeps_config (CmdCopy lib host a).
Proof. apply keeps_runContextCommand. Qed.
Lemma keeps_CmdAdd a : keeps_config (CmdAdd lib host a).
Proof. apply keeps_runContextCommand. Qed.

(** Every method of the dispatch keeps the address when the handler of
    FROM that the dispatch was given does. *)
Lemma keeps_MethodByName f mname method :
  (forall a, keeps_config (f a)) ->
  MethodByName lib host f mname = Some method ->
  forall a, keeps_config (method a).
Proof.
  intros Hf. unfold MethodByName.
  repeat match goal with
         | |- (if ?c then _ else _) = _ -> _ => destruct c
         end;
    intros E; try discriminate; injection E as <-; intros a;
    lazymatch goal with
    | |- keeps_config (CmdOnbuild _ _ _) => apply keeps_CmdOnbuild
    | |- keeps_config (CmdMaintainer _ _) => apply keeps_CmdMaintainer
    | |- keeps_config (CmdRun _ _ _) => apply keeps_CmdRun
    | |- keeps_config (CmdEnv _ _) => apply keeps_CmdEnv
    | |- keeps_config (CmdCmd _ _ _) => apply keeps_CmdCmd
    | |- keeps_config (CmdEntrypoint _ _ _) => apply keeps_CmdEntrypoint
    | |- keeps_config (CmdExpose _ _ _) => apply keeps_CmdExpose
    | |- keeps_config (CmdUser _ _) => apply keeps_CmdUser
    | |- keeps_config (CmdInsert _) => apply keeps_CmdInsert
    | |- keeps_config (CmdCopy _ _ _) => apply keeps_CmdCopy
    | |- keeps_config (CmdWorkdir _ _) => apply keeps_CmdWorkdir
    | |- keeps_config (CmdVolume _ _ _) => apply keeps_CmdVolume
    | |- keeps_config (CmdAdd _ _ _) => apply keeps_CmdAdd
    | |- _ => apply Hf
    end.
Qed.

Lemma keeps_BuildStep_with f name expression :
  (forall a, keeps_config (f a)) ->
  keeps_config (BuildStep_with lib host f name expression).
Proof.
  intros Hf. unfold BuildStep_with.
  apply keeps_bind; [apply keeps_out_print|]. intros _.
  destruct (strings.SplitN2 expression " ") as [|tmp0 [|tmp1 [|]]];
    try apply keeps_throw.
  destruct (method_name _) as [mname|]; [|apply keeps_panic].
  destruct (MethodByName lib host f mname) as [method|] eqn:E;
    [|apply keeps_err_print].
  apply keeps_bind; [eapply keeps_MethodByName; eassumption|].
  keeps.
Qed.

Lemma keeps_run_triggers BS triggers : forall n,
  (forall name step, keeps_config (BS name step)) ->
  keeps_config (W:=W) (run_triggers lib BS n triggers).
Proof.
  induction triggers as [|t rest IH]; intros n HBS; simpl.
  - apply keeps_pure.
  - destruct (String.eqb _ _); [apply keeps_throw|].
    destruct (_ || _); [apply keeps_throw|].
    apply keeps_bind; [apply HBS|]. intros _. apply IH, HBS.
Qed.

Lemma keeps_BuildStep_trigger name step :
  keeps_config (BuildStep_trigger lib host name step).
Proof.
  apply keeps_BuildStep_with. intros a. apply keeps_panic.
Qed.

End KeepsHandlers.

(** ** [CmdFrom] *)

Section From.

Context {W : Type} (lib : Lib) (host : forall c : call, W -> answer c * W).
Implicit Types s : @state W.

(** The config of an image object is a config of the heap. *)
Definition image_allocated (img : ImageObj) s : Prop :=
  forall p, img_Config img = Some p -> p < length (heap s).

Lemma image_object_allocated d s :
  post (image_object d) s
       (fun r s1 => forall img, r = Ok img -> image_allocated img s1).
Proof.
  unfold image_object, image_allocated. destruct (data_Config d) as [c|].
  - step. step. step. unstate. intros img E p Hp.
    injection E as <-. simpl in Hp. injection Hp as <-.
    rewrite length_app. simpl. lia.
  - step. intros img E p Hp. injection E as <-. discriminate.
Qed.

Lemma resolve_image_allocated name s img s1 :
  resolve_image lib host name s = (Ok img, s1) -> image_allocated img s1.
Proof.
  intros E.
  assert (H : post (resolve_image lib host name) s
                (fun r s1 => forall img, r = Ok img -> image_allocated img s1)).
  { unfold resolve_image. step. step. destruct a as [err|d].
    - destruct (Graph_IsNotExist lib err); [|step; discriminate].
      step. step. destruct (ParseRepositoryTag lib name) as [remote tag].
      step.
      assert (Hrest : forall auth s0,
        post (sys host (PullJob remote tag (sf_json (bf (after_call (LookupImage name) w s))) auth)
              ≫= fun r => check_err r ≫= fun _ =>
                 sys host (LookupImage name) ≫= fun r =>
                 check r ≫= fun d => image_object d) s0
             (fun r s1 => forall img, r = Ok img -> image_allocated img s1)).
      { intros auth s0. step. step. step. destruct a as [e|]; [discriminate|].
        step. step. step. step. destruct a as [e|d]; [discriminate|].
        apply image_object_allocated. }
      destruct (0 <? size _)%nat.
      + step. step. destruct (ResolveRepositoryName lib remote) as [e|endpoint];
          [discriminate|].
        step. apply Hrest.
      + step. apply Hrest.
    - apply image_object_allocated. }
  exact (post_elim _ _ _ H _ _ E img eq_refl).
Qed.

(** What [CmdFrom] has done when it comes to the triggers. *)
Definition adopt_post (img : ImageObj) (s1 : @state W)
  (r : outcome (list string)) (s2 : @state W) : Prop :=
  exists triggers,
    r = Ok triggers
    /\ image (bf s2) = img_ID img
    /\ match img_Config img with
       | Some p =>
           let c := default empty_Config (heap s1 !! p) in
           config (bf s2) = p /\ deref s2 = adopted lib c
           /\ triggers = OnBuild c
       | None =>
           config (bf s2) = length (heap s1)
           /\ deref s2 = adopted lib empty_Config /\ triggers = []
       end.

Lemma take_triggers_spec s :
  config_allocated s ->
  post (take_triggers lib) s
       (fun r s2 =>
          r = Ok (OnBuild (deref s)) /\ bf s2 = bf s
          /\ deref s2 = adopted lib (deref s)).
Proof.
  intros Ha. unfold take_triggers, adopted, seeded, config_allocated in *.
  step. step. step.
  set (c := deref s). assert (Hc : deref s = c) by reflexivity.
  destruct (Env c) as [|e0 env] eqn:Henv.
  - rewrite bool_decide_eq_true_2 by reflexivity.
    step. step. fold c. rewrite Henv. cbn [app]. unstate.
    step. step. unfold deref at 1 2. cbn [heap bf config].
    rewrite list_lookup_insert_eq by exact Ha. cbn [default from_option id].
    cbn [OnBuild set_Env].
    destruct (length (OnBuild c) =? 0)%nat; cbn [negb]; run_all;
      repeat split; reflexivity.
  - rewrite bool_decide_eq_false_2 by discriminate.
    step. step. step. fold c.
    destruct (length (OnBuild c) =? 0)%nat; cbn [negb]; run_all;
      repeat split; try reflexivity; rewrite ?Hc in *; reflexivity.
Qed.

Lemma adopt_image_spec img s1 :
  image_allocated img s1 ->
  post (adopt_image lib img) s1 (adopt_post img s1).
Proof.
  intros Halloc. unfold adopt_image, adopt_post.
  do 6 step. unstate.
  destruct (img_Config img) as [p|] eqn:Hp.
  - specialize (Halloc p Hp). step. step. unstate.
    eapply post_weaken.
    + apply take_triggers_spec. unfold config_allocated. simpl.
      rewrite length_app. simpl. lia.
    + intros r s2 (-> & Hbf & Hd). eexists. rewrite Hbf, Hd.
      unfold deref. cbn [heap bf config set_config].
      rewrite lookup_app_l by exact Halloc.
      repeat split; reflexivity.
  - step. step.
    eapply post_weaken.
    + apply take_triggers_spec. unfold config_allocated. simpl.
      rewrite length_app. simpl. lia.
    + intros r s2 (-> & Hbf & Hd). eexists. rewrite Hbf, Hd.
      unfold deref. cbn [heap bf config set_config].
      rewrite list_lookup_middle by reflexivity.
      repeat split; reflexivity.
Qed.

(** C2, as the code has it.  When [CmdFrom] has succeeded, it has
    resolved an image, made it the base of the build and run its triggers.
    The config of the build is then the config record of the image object
    itself: [b.config] holds the address that the image holds, and no copy
    is made; an image with no config gives a fresh empty config.  Before the
    triggers run, that record has got a default [PATH] entry if it had no
    environment, and its list of triggers has been emptied; the handlers
    that the triggers run write through the same address. *)
Theorem CmdFrom_shares_image_config name s s' :
  CmdFrom lib host name s = (Ok tt, s') ->
  exists img s1 s2 triggers,
    resolve_image lib host name s = (Ok img, s1)
    /\ adopt_image lib img s1 = (Ok triggers, s2)
    /\ run_triggers lib (BuildStep_trigger lib host) 0 triggers s2 = (Ok tt, s')
    /\ image (bf s2) = img_ID img
    /\ config (bf s') = config (bf s2)
    /\ match img_Config img with
       | Some p =>
           let c := default empty_Config (heap s1 !! p) in
           p < length (heap s1) /\ config (bf s2) = p
           /\ deref s2 = adopted lib c /\ triggers = OnBuild c
       | None =>
           config (bf s2) = length (heap s1)
           /\ deref s2 = adopted lib empty_Config /\ triggers = []
       end.
Proof.
  intros Hrun. unfold CmdFrom, CmdFrom_with, mbind, M_bind in Hrun.
  destruct (resolve_image lib host name s) as [[img|e|msg] s1] eqn:Hres;
    try discriminate.
  pose proof (resolve_image_allocated _ _ _ _ Hres) as Halloc.
  pose proof (adopt_image_spec img s1 Halloc) as Hadopt.
  unfold post in Hadopt.
  destruct (adopt_image lib img s1) as [r s2] eqn:Ha. simpl in Hadopt.
  destruct Hadopt as (triggers & -> & Himg & Hcfg).
  exists img, s1, s2, triggers.
  repeat (split; [first [reflexivity | assumption]|]).
  split.
  - pose proof (keeps_run_triggers lib (BuildStep_trigger lib host) triggers 0
                  (keeps_BuildStep_trigger lib host) s2) as Hk.
    rewrite Hrun in Hk. exact Hk.
  - destruct (img_Config img) as [p|] eqn:Hp.
    + destruct Hcfg as (H1 & H2 & H3). repeat split; try assumption.
      apply Halloc, Hp.
    + exact Hcfg.
Qed.

End From.

Lemma CmdFrom_shares_image_config_example :
  let run := CmdFrom Demo.lib (Demo.host Scenario.with_trigger) "base"
                     Scenario.fresh in
  exists img s1 s2 triggers,
    resolve_image Demo.lib (Demo.host Scenario.with_trigger) "base"
                  Scenario.fresh = (Ok img, s1)
    /\ adopt_image Demo.lib img s1 = (Ok triggers, s2)
    /\ run_triggers Demo.lib
         (BuildStep_trigger Demo.lib (Demo.host Scenario.with_trigger))
                    0 triggers s2 = (Ok tt, run.2)
    /\ image (bf s2) = img_ID img
    /\ config (bf run.2) = config (bf s2)
    /\ match img_Config img with
       | Some p =>
           let c := default empty_Config (heap s1 !! p) in
           p < length (heap s1) /\ config (bf s2) = p
           /\ deref s2 = adopted Demo.lib c /\ triggers = OnBuild c
       | None =>
           config (bf s2) = length (heap s1)
           /\ deref s2 = adopted Demo.lib empty_Config /\ triggers = []
       end.
Proof.
  intros run.
  apply (CmdFrom_shares_image_config Demo.lib
           (Demo.host Scenario.with_trigger) "base" Scenario.fresh run.2).
  vm_compute. reflexivity.
Defined.

(** After FROM the config that the image object holds is not what the
    lookup gave: it has a [PATH] and no trigger, and it is the config of the
    build. *)
Lemma image_config_is_rewritten :
  ~ image_config_untouched Demo.lib (Demo.host Scenario.with_trigger)
      Scenario.fresh "base".
Proof.
  intros H.
  assert (Hne :
    heap (CmdFrom Demo.lib (Demo.host Scenario.with_trigger) "base"
                  Scenario.fresh).2 !! 1
    <> heap (resolve_image Demo.lib (Demo.host Scenario.with_trigger) "base"
                           Scenario.fresh).2 !! 1)
    by (vm_compute; intros E; discriminate).
  apply Hne. apply (H (mkImageObj "base" (Some 1)));
    [vm_compute; reflexivity | vm_compute; reflexivity | reflexivity].
Qed.

(** ** [CmdEnv] *)

Lemma SplitN2_nonempty s sep : strings.SplitN2 s sep <> [].
Proof.
  induction s as [|c s IH]; simpl; [discriminate|].
  destruct (Ascii.eqb c sep); [discriminate|].
  destruct (strings.SplitN2 s sep); discriminate.
Qed.

(** What [FindEnvKey] returns: the index of the first entry that has the
    key, or -1 when there is none. *)
Lemma FindEnvKey_loop_spec key env : forall k0,
  (0 <= k0)%Z ->
  (FindEnvKey_loop key k0 env = (-1)%Z /\ (key ∉ (env_key <$> env)))
  \/ ((k0 <= FindEnvKey_loop key k0 env)%Z
      /\ exists e,
          env !! Z.to_nat (FindEnvKey_loop key k0 env - k0) = Some e
          /\ env_key e = key).
Proof.
  induction env as [|envVar rest IH]; intros k0 Hk0.
  - left. split; [reflexivity|]. apply not_elem_of_nil.
  - cbn [FindEnvKey_loop]. rewrite fmap_cons.
    assert (Hkey : exists parts,
      strings.SplitN2 envVar "=" = env_key envVar :: parts).
    { unfold env_key.
      destruct (strings.SplitN2 envVar "=") as [|envKey parts] eqn:E.
      - exfalso. exact (SplitN2_nonempty _ _ E).
      - exists parts. reflexivity. }
    destruct Hkey as [parts ->].
    destruct (String.eqb key (env_key envVar)) eqn:Hk.
    + apply String.eqb_eq in Hk. right.
      split; [lia|]. exists envVar. rewrite Z.sub_diag.
      split; [reflexivity|]. symmetry. exact Hk.
    + apply String.eqb_neq in Hk.
      destruct (IH (k0 + 1)%Z ltac:(lia)) as [[Hi Hnot] | [Hle (e & He & Hkey)]].
      * left. split; [exact Hi|]. rewrite not_elem_of_cons.
        split; [exact Hk|exact Hnot].
      * right. split; [lia|]. exists e. split; [|exact Hkey].
        replace (Z.to_nat (FindEnvKey_loop key (k0 + 1) rest - k0))
          with (S (Z.to_nat (FindEnvKey_loop key (k0 + 1) rest - (k0 + 1))))
          by lia.
        exact He.
Qed.

(** The update of [CmdEnv], on the environment alone. *)
Definition put_env (key replacedValue : string) (env : list string)
  : list string :=
  let envKey := FindEnvKey_loop key 0 env in
  let replacedVar := key +:+ "=" +:+ replacedValue in
  if (0 <=? envKey)%Z then <[Z.to_nat envKey := replacedVar]> env
  else env ++ [replacedVar].

Lemma put_env_unique key value env :
  strings.contains_byte "=" key = false ->
  unique_keys env -> unique_keys (put_env key value env).
Proof.
  intros Hkey Hu. unfold put_env, unique_keys in *.
  destruct (FindEnvKey_loop_spec key env 0 ltac:(lia))
    as [[Hi Hnot] | [Hle (e & He & Hk)]].
  - rewrite Hi. simpl. rewrite fmap_app. simpl.
    rewrite (env_key_compose _ _ Hkey).
    apply NoDup_app. split; [exact Hu|]. split.
    + intros x Hx Hin. apply list_elem_of_singleton in Hin. subst x.
      exact (Hnot Hx).
    + apply NoDup_singleton.
  - rewrite Z.sub_0_r in He.
    destruct (0 <=? FindEnvKey_loop key 0 env)%Z eqn:Hpos;
      [|apply Z.leb_gt in Hpos; lia].
    rewrite list_fmap_insert, (env_key_compose _ _ Hkey).
    rewrite list_insert_id; [exact Hu|].
    rewrite list_lookup_fmap, He. simpl. rewrite Hk. reflexivity.
Qed.

Lemma SplitN2_env_key envVar :
  exists parts, strings.SplitN2 envVar "=" = env_key envVar :: parts.
Proof.
  unfold env_key.
  destruct (strings.SplitN2 envVar "=") as [|k parts] eqn:E.
  - exfalso. exact (SplitN2_nonempty _ _ E).
  - exists parts. reflexivity.
Qed.

(** The loop of [FindEnvKey] stops at the first entry that has the key. *)
Lemma FindEnvKey_loop_first key env : forall k0,
  (FindEnvKey_loop key k0 env = (-1)%Z /\ (key ∉ (env_key <$> env)))
  \/ (exists i e,
        FindEnvKey_loop key k0 env = (k0 + Z.of_nat i)%Z
        /\ env !! i = Some e /\ env_key e = key
        /\ forall j e', j < i -> env !! j = Some e' -> env_key e' <> key).
Proof.
  induction env as [|envVar rest IH]; intros k0.
  - left. split; [reflexivity|]. apply not_elem_of_nil.
  - cbn [FindEnvKey_loop]. rewrite fmap_cons.
    destruct (SplitN2_env_key envVar) as [parts ->].
    destruct (String.eqb key (env_key envVar)) eqn:Hk.
    + apply String.eqb_eq in Hk. right. exists 0, envVar.
      split; [lia|]. split; [reflexivity|]. split; [congruence|].
      intros j e' Hj. lia.
    + apply String.eqb_neq in Hk.
      destruct (IH (k0 + 1)%Z) as [[Hi Hnot] | (i & e & Hi & He & Hkey & Hmin)].
      * left. split; [exact Hi|]. rewrite not_elem_of_cons. auto.
      * right. exists (S i), e. split; [lia|]. split; [exact He|].
        split; [exact Hkey|]. intros [|j] e' Hj He'.
        -- injection He' as <-. congruence.
        -- apply (Hmin j e'); [lia|exact He'].
Qed.

(** The update replaces the first entry of the key where it stands, no
    entry before it having the key, or adds an entry at the end when no
    entry has the key. *)
Lemma put_env_first key value env :
  (exists i e,
      env !! i = Some e /\ env_key e = key
      /\ (forall j e', j < i -> env !! j = Some e' -> env_key e' <> key)
      /\ put_env key value env = <[i := key +:+ "=" +:+ value]> env)
  \/ ((key ∉ (env_key <$> env))
      /\ put_env key value env = env ++ [key +:+ "=" +:+ value]).
Proof.
  unfold put_env.
  destruct (FindEnvKey_loop_first key env 0)
    as [[Hi Hnot] | (i & e & Hi & He & Hk & Hmin)].
  - right. rewrite Hi. split; [exact Hnot|reflexivity].
  - left. exists i, e. rewrite Hi.
    destruct (0 <=? 0 + Z.of_nat i)%Z eqn:Hpos; [|apply Z.leb_gt in Hpos; lia].
    replace (Z.to_nat (0 + Z.of_nat i)) with i by lia. auto.
Qed.

Section Env.

Context {W : Type} (lib : Lib) (host : forall c : call, W -> answer c * W).
Implicit Types s : @state W.

(** What [CmdEnv] does to [config.Env].  When its argument has no space,
    or when the interpolation of the value panics, it leaves the state as
    it was; otherwise the environment has got the entry of the key and
    the value, whatever the commit ends in. *)
Lemma CmdEnv_Env args s :
  config_allocated s ->
  post (CmdEnv host args) s
       (fun r s' =>
          match strings.SplitN2 args " " with
          | [tmp0; tmp1] =>
              match ReplaceEnvMatches_in (Env (deref s))
                      (strings.Trim tmp1 blank_cutset) with
              | Some value =>
                  Env (deref s')
                  = put_env (strings.Trim tmp0 blank_cutset) value
                            (Env (deref s))
              | None => r = Panic "index out of range" /\ s' = s
              end
          | _ => r = Err "Invalid ENV format" /\ s' = s
          end).
Proof.
  intros Ha. unfold CmdEnv, config_allocated in *.
  destruct (strings.SplitN2 args " ") as [|tmp0 [|tmp1 [|]]];
    try (step; split; reflexivity).
  unfold FindEnvKey, ReplaceEnvMatches.
  do 7 step.
  destruct (ReplaceEnvMatches_in (Env (deref s)) (strings.Trim tmp1 blank_cutset))
    as [value|]; [|step; split; reflexivity].
  step.
  set (key := strings.Trim tmp0 blank_cutset).
  set (env' := put_env key value (Env (deref s))).
  assert (Hmid : forall f,
    Env (f (deref s)) = env' ->
    post (modify_cfg f ≫= fun _ => get_cfg ≫= fun cfg : Config =>
            commit host EmptyString (Cmd cfg)
                   ("ENV " +:+ (key +:+ "=" +:+ value))) s
         (fun r s' => Env (deref s') = env')).
  { intros f Hf. step. step. step. step.
    set (s1 := with_cfg (f (deref s)) s).
    assert (Hd : deref s1 = f (deref s)).
    { unfold s1. unstate. deref_simpl. reflexivity. }
    rewrite Hd.
    destruct (strings.is_empty (image (bf s))) eqn:Him.
    - unfold post. rewrite commit_without_image by exact Him. simpl.
      rewrite Hd. exact Hf.
    - eapply post_weaken.
      + apply commit_nop_spec; [|exact Him].
        unfold config_allocated, s1. unstate. rewrite length_insert. exact Ha.
      + unfold commit_nop_post.
        intros r s' (_ & _ & _ & Hderef & _).
        rewrite Hderef, Hd. exact Hf. }
  unfold env', put_env in Hmid |- *. clear env'.
  destruct (0 <=? FindEnvKey_loop key 0 (Env (deref s)))%Z eqn:Hpos;
    apply Hmid; reflexivity.
Qed.

(** C6, as the code has it.  When the argument of [CmdEnv] has its two
    parts and the interpolation of the value returns, [config.Env] has got
    the entry of the key and the value, whatever the commit ends in: in the
    place of the first entry of that key where there is one, no entry
    before it having the key, and at the end when no entry has the key; and
    when the key holds no equals sign, an environment with at most one
    entry per key is one after the call too.  Otherwise [CmdEnv] ends with
    an error or a panic and leaves the state as it was. *)
Theorem CmdEnv_keeps_keys_unique args s r s' :
  config_allocated s ->
  CmdEnv host args s = (r, s') ->
  let env := Env (deref s) in
  let env' := Env (deref s') in
  match strings.SplitN2 args " " with
  | [tmp0; tmp1] =>
      let key := strings.Trim tmp0 blank_cutset in
      match ReplaceEnvMatches_in env (strings.Trim tmp1 blank_cutset) with
      | Some value =>
          ((exists i e,
              env !! i = Some e /\ env_key e = key
              /\ (forall j e', j < i -> env !! j = Some e' -> env_key e' <> key)
              /\ env' = <[i := key +:+ "=" +:+ value]> env)
           \/ ((key ∉ (env_key <$> env))
               /\ env' = env ++ [key +:+ "=" +:+ value]))
          /\ (strings.contains_byte "=" key = false ->
              unique_keys env -> unique_keys env')
      | None => r = Panic "index out of range" /\ s' = s
      end
  | _ => r = Err "Invalid ENV format" /\ s' = s
  end.
Proof.
  intros Ha Hrun env env'. subst env env'.
  pose proof (post_elim _ _ _ (CmdEnv_Env args s Ha) _ _ Hrun) as H.
  destruct (strings.SplitN2 args " ") as [|tmp0 [|tmp1 [|]]]; try exact H.
  destruct (ReplaceEnvMatches_in (Env (deref s))
              (strings.Trim tmp1 blank_cutset)) as [value|]; [|exact H].
  cbv zeta. rewrite H. split.
  - apply put_env_first.
  - intros Hkey Hu. apply put_env_unique; assumption.
Qed.

End Env.

Lemma CmdEnv_keeps_keys_unique_example :
  let run :=
    CmdEnv (Demo.host Scenario.plain) "A 2"
           (Scenario.building (set_Env ["A=1"; "B=x"] empty_Config)) in
  Env (deref run.2) = ["A=2"; "B=x"] /\ unique_keys (Env (deref run.2)).
Proof.
  intros run.
  pose proof (CmdEnv_keeps_keys_unique (Demo.host Scenario.plain) "A 2"
                (Scenario.building (set_Env ["A=1"; "B=x"] empty_Config))
                run.1 run.2) as H.
  assert (Ha : config_allocated
                 (Scenario.building (set_Env ["A=1"; "B=x"] empty_Config)))
    by (vm_compute; lia).
  specialize (H Ha (surjective_pairing run)).
  split; [vm_compute; reflexivity|].
  apply (proj2 H); [reflexivity|].
  refine (bool_decide_unpack _ _). vm_compute. exact I.
Defined.

(** With [A=1] in the environment, [ENV A=B C] adds the entry
    [A=B=C]: the key [A=B] is no key of an entry, as the keys are read up
    to the first equals sign, and the new entry is read as one of key [A].
    The environment then holds two entries of that key. *)
Theorem CmdEnv_duplicates_key_with_equals_sign :
  unique_keys ["A=1"]
  /\ Scenario.key_with_equals.1 = Ok tt
  /\ Env (deref Scenario.key_with_equals.2) = ["A=1"; "A=B=C"]
  /\ env_key <$> Env (deref Scenario.key_with_equals.2) = ["A"; "A"]
  /\ ~ unique_keys (Env (deref Scenario.key_with_equals.2)).
Proof.
  assert (E : Env (deref Scenario.key_with_equals.2) = ["A=1"; "A=B=C"])
    by (vm_compute; reflexivity).
  rewrite E. split; [|split; [|split; [|split]]].
  - refine (bool_decide_unpack _ _). vm_compute. exact I.
  - vm_compute. reflexivity.
  - reflexivity.
  - vm_compute. reflexivity.
  - refine (bool_decide_unpack _ _). vm_compute. exact I.
Qed.

(** ** The cache probe of COPY and ADD *)

Section Probe.

Context {W : Type} (lib : Lib) (host : forall c : call, W -> answer c * W).
Implicit Types s : @state W.

(** With an empty hash, a hit of the cache does not end the instruction,
    but the probe has made the cached image the base of the build and has
    announced the use of the cache. *)
Lemma empty_hash_hit_moves_image cmdName dest origPath s cacheID w :
  utilizeCache (bf s) = true ->
  host (ImageGetCached (image (bf s))
          (set_Cmd (nop_Cmd cmdName EmptyString dest) (deref s)))
       (world s)
  = (inr (Some cacheID), w) ->
  config_allocated s ->
  exists s',
    probe_with_hash host cmdName dest EmptyString origPath s
    = (Ok (Some origPath), s')
    /\ image (bf s') = cacheID
    /\ outStream s' = outStream s ++ [" ---> Using cache" +:+ LF_string].
Proof.
  intros Hu Hhit Ha. unfold config_allocated in Ha.
  assert (H : post (probe_with_hash host cmdName dest EmptyString origPath) s
                (fun r s' =>
                   r = Ok (Some origPath) /\ image (bf s') = cacheID
                   /\ outStream s'
                      = outStream s ++ [" ---> Using cache" +:+ LF_string])).
  { unfold probe_with_hash, probeCache. go. rewrite Hu. go.
    unfold deref in Hhit. rewrite Hhit in H. injection H as <- <-.
    go. repeat split; reflexivity. }
  revert H. unfold post.
  destruct (probe_with_hash host cmdName dest EmptyString origPath s)
    as [r s'].
  simpl. intros (-> & H1 & H2). exists s'. auto.
Qed.

End Probe.

(** C8. [COPY f /dst] with the cache on, the file [f] having no sum in
    the context, and a cache that answers a hit: the step announces the use
    of the cache and goes on to create a container from the base image, but
    what it commits is a config whose [Image] is the cached image, the probe
    having moved the base of the build to it; and when the container cannot
    be created, the step fails and the build is left on the cached image. *)
Theorem empty_hash_hit_is_acted_on :
  Scenario.copy_unsummed.1 = Ok tt
  /\ outStream Scenario.copy_unsummed.2 = [" ---> Using cache" +:+ LF_string]
  /\ (exists c, In (Create c) (calls Scenario.copy_unsummed.2)
                /\ Image c = "base")
  /\ Image <$> (snd <$> commits (calls Scenario.copy_unsummed.2)) = ["cached"]
  /\ Scenario.copy_unsummed_no_create.1 = Err "cannot create container"
  /\ image (bf Scenario.probing) = "base"
  /\ image (bf Scenario.copy_unsummed_no_create.2) = "cached".
Proof.
  split; [vm_compute; reflexivity|].
  split; [vm_compute; reflexivity|].
  split.
  { exists (set_Cmd (nop_Cmd "COPY" EmptyString "/dst")
                    (set_Image "base" empty_Config)).
    split; [|reflexivity]. vm_compute. auto 10. }
  repeat split; vm_compute; reflexivity.
Qed.

(** ** The theorems on the small daemon *)



Lemma bare_keyword_fails_build_example :
  BuildStep Demo.lib (Demo.host Scenario.plain) "0" "RUN"
            (Scenario.building empty_Config)
  = (Err "Invalid Dockerfile format",
     with_out (banner "0" "RUN") (Scenario.building empty_Config)).
Proof.
  apply (proj1 (bare_keyword_fails_build Demo.lib (Demo.host Scenario.plain)
                  "0" "RUN" (Scenario.building empty_Config) eq_refl)).
Defined.

(** An instruction that no method answers to is passed over, and the build
    goes on. *)
Lemma unknown_instruction_is_skipped :
  (BuildStep Demo.lib (Demo.host Scenario.plain) "0" "HEALTHCHECK none"
             (Scenario.building empty_Config)).1
  = Ok tt.
Proof. vm_compute. reflexivity. Qed.

(** FROM on an image that holds the trigger [WORKDIR ] panics. *)
Lemma CmdFrom_panics_on_WORKDIR_trigger :
  (CmdFrom Demo.lib (Demo.host Scenario.with_workdir_trigger) "base"
           Scenario.fresh).1
  = Panic "index out of range".
Proof. vm_compute. reflexivity. Qed.

(** ENV on the value [$FOO \$FOO], through the handler. *)
Lemma CmdEnv_rewrites_escaped_twin :
  Env (deref (CmdEnv (Demo.host Scenario.plain) "B $FOO \$FOO"
                     (Scenario.building (set_Env ["FOO=bar"] empty_Config))).2)
  = ["FOO=bar"; "B=bar \bar"].
Proof. vm_compute. reflexivity. Qed.
